(** * EveryAyah audio downloader: a shallow embedding of
    [scripts/download_everyayah.py] and the properties of its task
    catalog, single-file fetcher, statistics and run loop. *)

From stdpp Require Import gmap strings list.
From Stdlib Require Import Ascii DecimalString QArith.
Open Scope Z_scope.

(** ** Python values and built-ins used by the script *)

Module py.

(** The exceptions that the script can meet.  [Timeout] is
    [requests.exceptions.Timeout], [RequestException] stands for every
    other subclass of [requests.exceptions.RequestException] and carries
    [str(e)]; [OtherException] is any exception outside that hierarchy. *)
Inductive exn : Type :=
| IndexError
| ValueError
| Timeout
| RequestException (msg : string)
| OtherException (msg : string).

Inductive result (A : Type) : Type :=
| Ok (a : A)
| Raise (e : exn).
Arguments Ok {A} a.
Arguments Raise {A} e.

Definition bind {A B} (m : result A) (k : A → result B) : result B :=
  match m with
  | Ok a => k a
  | Raise e => Raise e
  end.

(** [for x in xs: acc = body(acc, x)] where the body may raise. *)
Fixpoint for_each {A S} (xs : list A) (body : S → A → result S) (acc : S)
  : result S :=
  match xs with
  | [] => Ok acc
  | x :: xs' => bind (body acc x) (for_each xs' body)
  end.

(** [str(n)] for an [int]. *)
Definition str (n : Z) : string := NilZero.string_of_int (Z.to_int n).

(** [len(s)]. *)
Definition len (s : string) : Z := Z.of_nat (String.length s).

Fixpoint zeros (n : nat) : string :=
  match n with
  | O => EmptyString
  | S n' => String "0"%char (zeros n')
  end.

(** [s.zfill(width)]: left padding with the digit zero, a leading sign
    stays in front. *)
Definition zfill (s : string) (width : Z) : string :=
  if width <=? len s then s
  else
    let fill := Z.to_nat (width - len s) in
    match s with
    | String c rest =>
        if Ascii.eqb c "+"%char || Ascii.eqb c "-"%char
        then String c (zeros fill +:+ rest)
        else zeros fill +:+ s
    | EmptyString => zeros fill
    end.

(** [range(a, b)]. *)
Definition range (a b : Z) : list Z := seqZ a (b - a).

(** [l[i]], with Python's negative indices and [IndexError]. *)
Definition getitem {A} (l : list A) (i : Z) : result A :=
  let n := Z.of_nat (length l) in
  let j := if i <? 0 then i + n else i in
  if (j <? 0) || (n <=? j) then Raise IndexError
  else match l !! Z.to_nat j with
       | Some x => Ok x
       | None => Raise IndexError
       end.

(** [s.rfind(c)] for a one-character needle: the last index, or -1. *)
Fixpoint rfind_from (c : ascii) (s : string) (i acc : Z) : Z :=
  match s with
  | EmptyString => acc
  | String a s' => rfind_from c s' (i + 1) (if Ascii.eqb a c then i else acc)
  end.
Definition rfind (c : ascii) (s : string) : Z := rfind_from c s 0 (-1).

(** [s.split(c)] for a one-character separator. *)
Fixpoint split (c : ascii) (s : string) : list string :=
  match s with
  | EmptyString => [EmptyString]
  | String a s' =>
      if Ascii.eqb a c then EmptyString :: split c s'
      else match split c s' with
           | x :: xs => String a x :: xs
           | [] => [String a EmptyString]
           end
  end.

(** [c in s]. *)
Fixpoint contains (c : ascii) (s : string) : bool :=
  match s with
  | EmptyString => false
  | String a s' => Ascii.eqb a c || contains c s'
  end.

(** [sep.join(xs)]. *)
Fixpoint join (sep : string) (xs : list string) : string :=
  match xs with
  | [] => EmptyString
  | [x] => x
  | x :: xs' => x +:+ sep +:+ join sep xs'
  end.

(** [c.isspace()] for a character below 256. *)
Definition is_space (c : ascii) : bool :=
  let n := nat_of_ascii c in
  ((9 <=? n)%nat && (n <=? 13)%nat) || ((28 <=? n)%nat && (n <=? 32)%nat)
  || (n =? 133)%nat || (n =? 160)%nat.

Fixpoint lstrip (s : string) : string :=
  match s with
  | EmptyString => EmptyString
  | String c s' => if is_space c then lstrip s' else s
  end.

Fixpoint rstrip (s : string) : string :=
  match s with
  | EmptyString => EmptyString
  | String c s' =>
      match rstrip s' with
      | EmptyString => if is_space c then EmptyString else String c EmptyString
      | t => String c t
      end
  end.

(** [s.strip()] *)
Definition strip (s : string) : string := lstrip (rstrip s).

(** An optional string argument that is given and not empty: what
    [if args.x:] lets through. *)
Definition truthy (s : option string) : option string :=
  match s with
  | Some EmptyString => None
  | other => other
  end.

End py.

Global Instance result_ret : MRet py.result := @py.Ok.
Global Instance result_bind : MBind py.result := fun A B k m => py.bind m k.

(** ** [pathlib] paths (POSIX flavour)

    A path is its root (empty, one slash or two slashes) and its list of
    components; [pathlib] compares paths by exactly these. *)

Module pathlib.

Record Path : Type := mkPath { root : string; parts : list string }.

Global Instance Path_eq_dec : EqDecision Path.
Proof. solve_decision. Defined.

Global Instance Path_countable : Countable Path.
Proof.
  apply (inj_countable' (fun p => (root p, parts p))
                        (fun x => mkPath x.1 x.2)).
  by intros [].
Defined.

Fixpoint leading_slashes (s : string) : nat :=
  match s with
  | String "/"%char s' => S (leading_slashes s')
  | _ => O
  end.

(** Two leading slashes are kept as a root of their own, any other
    positive number collapses to one. *)
Definition parse_root (s : string) : string :=
  match leading_slashes s with
  | O => EmptyString
  | 2%nat => "//"
  | _ => "/"
  end.

(** Empty and single-dot components are dropped. *)
Definition parse_components (s : string) : list string :=
  filter (fun c => c ≠ EmptyString ∧ c ≠ ".") (py.split "/"%char s).

(** [Path(s)] *)
Definition of_string (s : string) : Path :=
  mkPath (parse_root s) (parse_components s).

(** [p / s]: an absolute right operand replaces the left one. *)
Definition joinpath (p : Path) (s : string) : Path :=
  if decide (parse_root s = EmptyString) then mkPath (root p) (parts p ++ parse_components s)
  else of_string s.

(** [p.name]: the final component, empty when there is none. *)
Definition name (p : Path) : string := List.last (parts p) EmptyString.

(** [p.parent] *)
Definition parent (p : Path) : Path := mkPath (root p) (removelast (parts p)).

(** The suffix of a file name: from its last dot, unless that dot is the
    first or the last character. *)
Definition name_suffix (n : string) : string :=
  let i := py.rfind "."%char n in
  if (0 <? i) && (i <? py.len n - 1)
  then String.substring (Z.to_nat i) (String.length n - Z.to_nat i) n
  else EmptyString.

Definition replace_suffix (n suffix : string) : string :=
  let old := name_suffix n in
  String.substring 0 (String.length n - String.length old) n +:+ suffix.

(** [p.with_suffix(suffix)], which raises [ValueError] on an invalid
    suffix and on a path without a name. *)
Definition with_suffix (p : Path) (suffix : string) : py.result Path :=
  if py.contains "/"%char suffix then py.Raise py.ValueError
  else if (negb (String.eqb suffix EmptyString) && negb (String.prefix "." suffix))
          || String.eqb suffix "."
  then py.Raise py.ValueError
  else if String.eqb (name p) EmptyString then py.Raise py.ValueError
  else py.Ok (mkPath (root p)
                     (removelast (parts p) ++ [replace_suffix (name p) suffix])).

(** [str(p)] *)
Definition to_string (p : Path) : string :=
  match root p, parts p with
  | EmptyString, [] => "."
  | r, ps => r +:+ py.join "/" ps
  end.

End pathlib.

Abbreviation Path := pathlib.Path.
Infix "/:" := pathlib.joinpath (at level 40, left associativity).

(** ** Static tables of the script *)

Record Reciter : Type := mkReciter { folder : string; name : string; style : string }.

Global Instance Reciter_eq_dec : EqDecision Reciter.
Proof. solve_decision. Defined.

Definition RECITERS : list Reciter := [
  mkReciter "Abdul_Basit_Murattal_192kbps" "Abdul Basit Abdul Samad" "Murattal";
  mkReciter "Abdul_Basit_Mujawwad_128kbps" "Abdul Basit Abdul Samad" "Mujawwad";
  mkReciter "Husary_128kbps" "Mahmoud Khalil Al-Hussary" "Murattal";
  mkReciter "Husary_Mujawwad_64kbps" "Mahmoud Khalil Al-Hussary" "Mujawwad";
  mkReciter "Minshawy_Murattal_128kbps" "Mohamed Siddiq Al-Minshawi" "Murattal";
  mkReciter "Minshawy_Mujawwad_64kbps" "Mohamed Siddiq Al-Minshawi" "Mujawwad";
  mkReciter "Ghamadi_40kbps" "Saad Al-Ghamdi" "Murattal";
  mkReciter "MaherAlMuaiqly128kbps" "Maher Al-Muaiqly" "Murattal";
  mkReciter "Muhammad_Ayyoub_128kbps" "Muhammad Ayyub" "Murattal";
  mkReciter "Abu_Bakr_Ash-Shaatree_128kbps" "Abu Bakr Al-Shatri" "Murattal";
  mkReciter "Hani_Rifai_192kbps" "Hani Ar-Rifai" "Murattal";
  mkReciter "ahmed_ibn_ali_al_ajamy_128kbps" "Ahmed ibn Ali al-Ajamy" "Murattal";
  mkReciter "Nasser_Alqatami_128kbps" "Nasser Al-Qatami" "Murattal";
  mkReciter "Mohammad_al_Tablaway_128kbps" "Mohammad al-Tablaway" "Murattal";
  mkReciter "Mustafa_Ismail_48kbps" "Mustafa Ismail" "Mujawwad";
  mkReciter "Salaah_AbdulRahman_Bukhatir_128kbps" "Salaah AbdulRahman Bukhatir" "Murattal";
  mkReciter "Muhsin_Al_Qasim_192kbps" "Muhsin Al-Qasim" "Murattal";
  mkReciter "Abdullaah_3awwaad_Al-Juhaynee_128kbps" "Abdullah Awad Al-Juhani" "Murattal";
  mkReciter "Salah_Al_Budair_128kbps" "Salah Al-Budair" "Murattal";
  mkReciter "Abdullah_Matroud_128kbps" "Abdullah Matroud" "Murattal";
  mkReciter "Ahmed_Neana_128kbps" "Ahmed Neana" "Murattal";
  mkReciter "Muhammad_AbdulKareem_128kbps" "Muhammad AbdulKareem" "Murattal";
  mkReciter "khalefa_al_tunaiji_64kbps" "Khalefa Al-Tunaiji" "Murattal";
  mkReciter "mahmoud_ali_al_banna_32kbps" "Mahmoud Ali Al-Banna" "Mujawwad";
  mkReciter "Khaalid_Abdullaah_al-Qahtaanee_192kbps" "Khalid Abdullah Al-Qahtani" "Murattal";
  mkReciter "Yasser_Ad-Dussary_128kbps" "Yasser Ad-Dussary" "Murattal";
  mkReciter "Ali_Hajjaj_AlSuesy_128kbps" "Ali Hajjaj Al-Suesy" "Murattal";
  mkReciter "Sahl_Yassin_128kbps" "Sahl Yassin" "Murattal";
  mkReciter "aziz_alili_128kbps" "Aziz Alili" "Murattal";
  mkReciter "Yaser_Salamah_128kbps" "Yaser Salamah" "Murattal";
  mkReciter "Akram_AlAlaqimy_128kbps" "Akram Al-Alaqimy" "Murattal";
  mkReciter "Ali_Jaber_64kbps" "Ali Jaber" "Murattal";
  mkReciter "Fares_Abbad_64kbps" "Fares Abbad" "Murattal";
  mkReciter "Ayman_Sowaid_64kbps" "Ayman Sowaid" "Murattal";
  mkReciter "Ibrahim_Akhdar_32kbps" "Ibrahim Al-Akhdar" "Murattal";
  mkReciter "Parhizgar_48kbps" "Shahriar Parhizgar" "Murattal";
  mkReciter "Saood_ash-Shuraym_128kbps" "Saud Ash-Shuraim" "Murattal";
  mkReciter "Abdullah_Basfar_192kbps" "Abdullah Basfar" "Murattal";
  mkReciter "Hudhaify_128kbps" "Ali Al-Hudhaify" "Murattal";
  mkReciter "Muhammad_Jibreel_128kbps" "Muhammad Jibreel" "Murattal";
  mkReciter "warsh/warsh_Abdul_Basit_128kbps" "Abdul Basit (Warsh)" "Warsh";
  mkReciter "warsh/warsh_ibrahim_aldosary_128kbps" "Ibrahim Ad-Dosari (Warsh)" "Warsh";
  mkReciter "Karim_Mansoori_40kbps" "Karim Mansoori" "Murattal";
  mkReciter "warsh/warsh_yassin_al_jazaery_64kbps" "Yassin Al-Jazaery" "Warsh"
].

Definition SURAH_AYAH_COUNTS : list Z := [
  7; 286; 200; 176; 120; 165; 206; 75; 129; 109; 123; 111;
  43; 52; 99; 128; 111; 110; 98; 135; 112; 78; 118; 64;
  77; 227; 93; 88; 69; 60; 34; 30; 73; 54; 45; 83;
  182; 88; 75; 85; 54; 53; 89; 59; 37; 35; 38; 29;
  18; 45; 60; 49; 62; 55; 78; 96; 29; 22; 24; 13;
  14; 11; 11; 18; 12; 12; 30; 52; 52; 44; 28; 28;
  20; 56; 40; 31; 50; 40; 46; 42; 29; 19; 36; 25;
  22; 17; 19; 26; 30; 20; 15; 21; 11; 8; 8; 19;
  5; 8; 8; 11; 11; 8; 3; 9; 5; 4; 7; 3;
  6; 3; 5; 4; 5; 6
].

Definition BASE_URL : string := "https://everyayah.com/data".

(** ** Task catalog *)

(** A task is the tuple [(url, output_path, reciter_name, surah, ayah)]. *)
Record Task : Type := mkTask {
  url : string;
  output_path : Path;
  reciter_name : string;
  surah : Z;
  ayah : Z
}.

Definition task_filename (surah_num ayah_num : Z) : string :=
  let surah_str := py.zfill (py.str surah_num) 3 in
  let ayah_str := py.zfill (py.str ayah_num) 3 in
  surah_str +:+ ayah_str +:+ ".mp3".

(** The body of the innermost loop of [generate_download_tasks]: the task
    appended for one reciter, surah and ayah. *)
Definition make_task (output_dir : Path) (reciter : Reciter)
    (surah_num ayah_num : Z) : Task :=
  let filename := task_filename surah_num ayah_num in
  let url := BASE_URL +:+ "/" +:+ folder reciter +:+ "/" +:+ filename in
  let output_path := output_dir /: folder reciter /: filename in
  mkTask url output_path (name reciter) surah_num ayah_num.

Definition generate_download_tasks (reciters : list Reciter) (output_dir : Path)
  : py.result (list Task) :=
  py.for_each reciters (fun tasks reciter =>
    py.for_each (py.range 1 115) (fun tasks surah_num =>
      ayah_count ← py.getitem SURAH_AYAH_COUNTS (surah_num - 1);
      py.for_each (py.range 1 (ayah_count + 1)) (fun tasks ayah_num =>
        py.Ok (tasks ++ [make_task output_dir reciter surah_num ayah_num]))
        tasks)
      tasks)
    [].


(** [sum(xs)] *)
Definition py_sum (xs : list Z) : Z := foldl Z.add 0 xs.

(** The catalog in the words of its description: one task for each
    reciter, surah and ayah, by reciter, then surah 1 to 114, then ayah 1 to
    the surah's count. *)
Definition ayah_count_of (surah_num : Z) : Z :=
  default 0 (SURAH_AYAH_COUNTS !! Z.to_nat (surah_num - 1)).

Definition ayah_index : list (Z * Z) :=
  surah_num ← seqZ 1 114;
  ayah_num ← seqZ 1 (ayah_count_of surah_num);
  [(surah_num, ayah_num)].

Definition catalog (reciters : list Reciter) (output_dir : Path) : list Task :=
  reciter ← reciters;
  (λ sa, make_task output_dir reciter sa.1 sa.2) <$> ayah_index.

(** The reciters [main] hands to the catalog: the whole table, or with
    [--reciters] the entries of the table whose folder is among the given
    names, [[r for r in RECITERS if r["folder"] in reciter_folders]]. *)
Definition select_reciters (reciter_folders : option (list string)) : list Reciter :=
  match reciter_folders with
  | Some names => filter (λ r, folder r ∈ names) RECITERS
  | None => RECITERS
  end.

(** Reading the surah and the ayah back from a file name of the catalog. *)
Definition digit_value (c : ascii) : Z := Z.of_nat (nat_of_ascii c) - 48.

Definition decode_filename (filename : string) : Z * Z :=
  match filename with
  | String s1 (String s2 (String s3 (String a1 (String a2 (String a3 _))))) =>
      (100 * digit_value s1 + 10 * digit_value s2 + digit_value s3,
       100 * digit_value a1 + 10 * digit_value a2 + digit_value a3)
  | _ => (0, 0)
  end.

(** ** The world the fetcher acts on

    Regular files are a finite map from paths to contents (directories are
    not tracked, and operations on existing files do not fail).  Every
    call that leaves the process is recorded, in order, as an event. *)

Abbreviation bytes := (list Byte.byte).
Abbreviation FileSystem := (gmap Path bytes).

Inductive event : Type :=
| EvGet (url : string)               (* session.get(url, timeout=30, stream=True) *)
| EvSleep (seconds : Z)              (* time.sleep(seconds) *)
| EvMkdir (p : Path)                 (* p.mkdir(parents=True, exist_ok=True) *)
| EvOpen (p : Path)                  (* open(p, 'wb') *)
| EvWrite (p : Path) (chunk : bytes) (* f.write(chunk) on the file opened at p *)
| EvUnlink (p : Path)                (* p.unlink() *)
| EvRename (src dst : Path).         (* src.rename(dst) *)

(** A response: its status, the chunks [iter_content] yields, and the
    exception that ends the stream early, if any. *)
Record Response : Type := mkResponse {
  status_code : Z;
  iter_content : list bytes;
  stream_error : option py.exn
}.

Inductive get_outcome : Type :=
| GetRaises (e : py.exn)
| GetReturns (response : Response).

(** What [session.get] does at each attempt of one [download_file] call. *)
Definition Session : Type := Z → get_outcome.

Definition st_size (content : bytes) : Z := Z.of_nat (length content).

Definition rename (src dst : Path) (fs : FileSystem) : FileSystem :=
  match fs !! src with
  | Some content => <[dst := content]> (delete src fs)
  | None => fs
  end.

(** ** Single-file fetcher *)

Definition MIN_VALID_FILE_SIZE : Z := 1024.

(** The value [download_file] returns: [(success, skipped, error)]. *)
Definition Outcome : Type := bool * bool * option string.

(** How a block of the loop body ends. *)
Inductive completion : Type :=
| Return (v : Outcome)
| Continue
| Raised (e : py.exn).

(** [for chunk in response.iter_content(chunk_size=8192): if chunk: f.write(chunk)] *)
Fixpoint write_chunks (temp_path : Path) (chunks : list bytes) (fs : FileSystem)
  : FileSystem * list event :=
  match chunks with
  | [] => (fs, [])
  | [] :: rest => write_chunks temp_path rest fs
  | chunk :: rest =>
      let fs1 := <[temp_path := default [] (fs !! temp_path) ++ chunk]> fs in
      let '(fs2, ev) := write_chunks temp_path rest fs1 in
      (fs2, EvWrite temp_path chunk :: ev)
  end.

(** The [try] block of one attempt. *)
Definition try_block (url : string) (output_path temp_path : Path)
    (retries attempt : Z) (get : get_outcome) (fs : FileSystem)
  : completion * FileSystem * list event :=
  match get with
  | GetRaises e => (Raised e, fs, [EvGet url])
  | GetReturns response =>
      if status_code response =? 200 then
        let fs1 := <[temp_path := []]> fs in
        let '(fs2, written) := write_chunks temp_path (iter_content response) fs1 in
        let ev := EvGet url :: EvOpen temp_path :: written in
        match stream_error response with
        | Some e => (Raised e, fs2, ev)
        | None =>
            match fs2 !! temp_path with
            | None => (Raised (py.OtherException "FileNotFoundError"), fs2, ev)
            | Some content =>
                if MIN_VALID_FILE_SIZE <=? st_size content then
                  (Return (true, false, None),
                   rename temp_path output_path fs2,
                   ev ++ [EvRename temp_path output_path])
                else
                  (Return (false, false, Some "Downloaded file too small"),
                   delete temp_path fs2,
                   ev ++ [EvUnlink temp_path])
            end
        end
      else if status_code response =? 404 then
        (Return (false, false, Some "404 Not Found"), fs, [EvGet url])
      else if attempt <? retries - 1 then
        (Continue, fs, [EvGet url; EvSleep (1 * (attempt + 1))])
      else
        (Return (false, false, Some ("HTTP " +:+ py.str (status_code response))),
         fs, [EvGet url])
  end.

(** The [except] clauses. *)
Definition except_clauses (retries attempt : Z) (c : completion)
  : completion * list event :=
  match c with
  | Raised py.Timeout =>
      if attempt <? retries - 1 then (Continue, [EvSleep (2 * (attempt + 1))])
      else (Return (false, false, Some "Timeout"), [])
  | Raised (py.RequestException msg) =>
      if attempt <? retries - 1 then (Continue, [EvSleep (2 * (attempt + 1))])
      else (Return (false, false, Some msg), [])
  | _ => (c, [])
  end.

(** The [finally] clause. *)
Definition finally_clause (temp_path : Path) (fs : FileSystem)
  : FileSystem * list event :=
  match fs !! temp_path with
  | Some _ => (delete temp_path fs, [EvUnlink temp_path])
  | None => (fs, [])
  end.

(** One iteration of [for attempt in range(retries)]. *)
Definition attempt_body (url : string) (output_path temp_path : Path)
    (retries attempt : Z) (get : get_outcome) (fs : FileSystem)
  : completion * FileSystem * list event :=
  let '(c, fs1, ev1) := try_block url output_path temp_path retries attempt get fs in
  let '(c', ev2) := except_clauses retries attempt c in
  let '(fs2, ev3) := finally_clause temp_path fs1 in
  (c', fs2, ev1 ++ ev2 ++ ev3).

Fixpoint attempts (url : string) (output_path temp_path : Path) (retries : Z)
    (session : Session) (todo : list Z) (fs : FileSystem)
  : py.result Outcome * FileSystem * list event :=
  match todo with
  | [] => (py.Ok (false, false, Some "Max retries exceeded"), fs, [])
  | attempt :: rest =>
      let '(c, fs1, ev1) :=
        attempt_body url output_path temp_path retries attempt (session attempt) fs in
      match c with
      | Return v => (py.Ok v, fs1, ev1)
      | Raised e => (py.Raise e, fs1, ev1)
      | Continue =>
          let '(r, fs2, ev2) :=
            attempts url output_path temp_path retries session rest fs1 in
          (r, fs2, ev1 ++ ev2)
      end
  end.

(** [download_file] from the creation of the parent directory onwards. *)
Definition fetch (url : string) (output_path : Path) (session : Session)
    (retries : Z) (fs : FileSystem)
  : py.result Outcome * FileSystem * list event :=
  let mk := EvMkdir (pathlib.parent output_path) in
  match pathlib.with_suffix output_path ".tmp" with
  | py.Raise e => (py.Raise e, fs, [mk])
  | py.Ok temp_path =>
      let '(r, fs1, ev) :=
        attempts url output_path temp_path retries session (py.range 0 retries) fs in
      (r, fs1, mk :: ev)
  end.

Definition download_file (url : string) (output_path : Path) (session : Session)
    (retries : Z) (force : bool) (fs : FileSystem)
  : py.result Outcome * FileSystem * list event :=
  match (if force then None else fs !! output_path) with
  | Some content =>
      if MIN_VALID_FILE_SIZE <=? st_size content then
        (py.Ok (true, true, None), fs, [])
      else
        let '(r, fs1, ev) := fetch url output_path session retries (delete output_path fs) in
        (r, fs1, EvUnlink output_path :: ev)
  | None => fetch url output_path session retries fs
  end.

(** ** Small scenarios *)

Definition always (g : get_outcome) : Session := fun _ => g.
Definition body_of (n : nat) : list bytes := [replicate n Byte.x00].
Definition dest : Path := pathlib.of_string "out" /: "Husary_128kbps" /: "001001.mp3".
Definition dest_tmp : Path := pathlib.of_string "out" /: "Husary_128kbps" /: "001001.tmp".

(** ** Reading the event log *)

Definition is_network (e : event) : bool :=
  match e with
  | EvGet _ | EvSleep _ => true
  | _ => false
  end.

(** The network calls and sleeps of a log, in order. *)
Definition network_trace (ev : list event) : list event := List.filter is_network ev.

(** An event that creates or extends a file does so at [p]. *)
Definition writes_only_to (p : Path) (e : event) : Prop :=
  match e with
  | EvOpen q | EvWrite q _ => q = p
  | _ => True
  end.

(** The destination is there with a valid size and [force] is off. *)
Definition already_present (force : bool) (output_path : Path) (fs : FileSystem) : bool :=
  negb force &&
  match fs !! output_path with
  | Some content => MIN_VALID_FILE_SIZE <=? st_size content
  | None => false
  end.

(** The error an attempt ends with when the transport fails in a way the
    script retries: at [session.get] or while the body is streamed. *)
Definition transient_error (g : get_outcome) : option string :=
  let of_exn e :=
    match e with
    | py.Timeout => Some "Timeout"
    | py.RequestException msg => Some msg
    | _ => None
    end in
  match g with
  | GetRaises e => of_exn e
  | GetReturns response =>
      if status_code response =? 200 then stream_error response ≫= of_exn
      else None
  end.

(** The size of a complete body. *)
Definition body_size (response : Response) : Z := st_size (concat (iter_content response)).

(** The error of an attempt that the script does not retry: a 404, or a
    200 whose complete body is below the threshold. *)
Definition permanent_error (g : get_outcome) : option string :=
  match g with
  | GetRaises _ => None
  | GetReturns response =>
      if status_code response =? 200 then
        match stream_error response with
        | Some _ => None
        | None => if body_size response <? MIN_VALID_FILE_SIZE
                  then Some "Downloaded file too small" else None
        end
      else if status_code response =? 404 then Some "404 Not Found"
      else None
  end.

(** The shapes of a returned value. *)
Definition fetched_shape (v : Outcome) : Prop :=
  v = (true, false, None) ∨ ∃ e, v = (false, false, Some e).

Definition outcome_shape (v : Outcome) : Prop :=
  v = (true, true, None) ∨ v = (true, false, None) ∨ ∃ e, v = (false, false, Some e).


(** ** Statistics *)

(** One entry of [failed_files]: the dict with the keys [url], [path],
    [reciter], [surah], [ayah] and [error]. *)
Record FailureRecord : Type := mkFailureRecord {
  fr_url : string;
  fr_path : string;
  fr_reciter : string;
  fr_surah : Z;
  fr_ayah : Z;
  fr_error : option string
}.

Record DownloadStats : Type := mkDownloadStats {
  total : Z;
  downloaded : Z;
  skipped : Z;
  failed : Z;
  verified : Z;
  failed_files : list FailureRecord;
  start_time : option Q
}.

(** [DownloadStats()] *)
Definition DownloadStats_init : DownloadStats := mkDownloadStats 0 0 0 0 0 [] None.

(** [stats.start(total)], with the clock reading of [time.time()]. *)
Definition start (stats : DownloadStats) (total' : Z) (now : Q) : DownloadStats :=
  mkDownloadStats total' (downloaded stats) (skipped stats) (failed stats)
    (verified stats) (failed_files stats) (Some now).

Definition set_downloaded (n : Z) (stats : DownloadStats) : DownloadStats :=
  mkDownloadStats (total stats) n (skipped stats) (failed stats)
    (verified stats) (failed_files stats) (start_time stats).

Definition set_skipped (n : Z) (stats : DownloadStats) : DownloadStats :=
  mkDownloadStats (total stats) (downloaded stats) n (failed stats)
    (verified stats) (failed_files stats) (start_time stats).

Definition set_failed (n : Z) (stats : DownloadStats) : DownloadStats :=
  mkDownloadStats (total stats) (downloaded stats) (skipped stats) n
    (verified stats) (failed_files stats) (start_time stats).

(** [stats.failed_files.append(record)] *)
Definition append_failed (record : FailureRecord) (stats : DownloadStats) : DownloadStats :=
  mkDownloadStats (total stats) (downloaded stats) (skipped stats) (failed stats)
    (verified stats) (failed_files stats ++ [record]) (start_time stats).

Definition failure_record (task : Task) (error : option string) : FailureRecord :=
  mkFailureRecord (url task) (pathlib.to_string (output_path task))
    (reciter_name task) (surah task) (ayah task) error.

(** ** The worker *)

(** The value [download_worker] returns: [(url, success, skipped, error)]. *)
Definition WorkerResult : Type := string * bool * bool * option string.

(** [download_worker], run from its first to its last statement with no
    other thread in between. *)
Definition download_worker (task : Task) (session : Session) (stats : DownloadStats)
    (force : bool) (fs : FileSystem)
  : py.result WorkerResult * DownloadStats * FileSystem * list event :=
  let '(r, fs', ev) := download_file (url task) (output_path task) session 3 force fs in
  match r with
  | py.Raise e => (py.Raise e, stats, fs', ev)
  | py.Ok (success, skipped', error) =>
      let stats' :=
        if success then
          if skipped' then set_skipped (skipped stats + 1) stats
          else set_downloaded (downloaded stats + 1) stats
        else
          append_failed (failure_record task error)
            (set_failed (failed stats + 1) stats) in
      (py.Ok (url task, success, skipped', error), stats', fs', ev)
  end.

(** ** The worker pool, statement by statement

    The script takes no lock around the statistics.  In the pool each
    worker advances on its own: the call of [download_file] is one step, an
    augmented assignment [stats.x += 1] is two steps (read the attribute,
    store the sum) and [list.append] is one step; steps of different
    workers may alternate in any way. *)

Inductive pc : Type :=
| Start                           (* before the call of download_file *)
| Fetched (v : Outcome)           (* download_file has returned v *)
| Loaded (v : Outcome) (r : Z)    (* the counter has been read as r *)
| Stored (v : Outcome)            (* stats.failed stored, record not yet appended *)
| Done (r : py.result WorkerResult).

Record Worker : Type := mkWorker {
  w_task : Task;
  w_session : Session;
  w_pc : pc
}.

Record Pool : Type := mkPool {
  p_stats : DownloadStats;
  p_fs : FileSystem;
  p_workers : list Worker
}.

Definition worker_result (task : Task) (v : Outcome) : py.result WorkerResult :=
  py.Ok (url task, v.1.1, v.1.2, v.2).

(** One step of one worker on the shared statistics and files. *)
Definition worker_step (force : bool) (w : Worker) (stats : DownloadStats)
    (fs : FileSystem) : Worker * DownloadStats * FileSystem :=
  let task := w_task w in
  let at_pc := mkWorker task (w_session w) in
  match w_pc w with
  | Start =>
      let '(r, fs', _) :=
        download_file (url task) (output_path task) (w_session w) 3 force fs in
      match r with
      | py.Ok v => (at_pc (Fetched v), stats, fs')
      | py.Raise e => (at_pc (Done (py.Raise e)), stats, fs')
      end
  | Fetched (success, skipped', error) =>
      let r :=
        if success then if skipped' then skipped stats else downloaded stats
        else failed stats in
      (at_pc (Loaded (success, skipped', error) r), stats, fs)
  | Loaded (success, skipped', error) r =>
      let v := (success, skipped', error) in
      if success then
        if skipped' then (at_pc (Done (worker_result task v)), set_skipped (r + 1) stats, fs)
        else (at_pc (Done (worker_result task v)), set_downloaded (r + 1) stats, fs)
      else (at_pc (Stored v), set_failed (r + 1) stats, fs)
  | Stored v =>
      (at_pc (Done (worker_result task v)),
       append_failed (failure_record task v.2) stats, fs)
  | Done r => (w, stats, fs)
  end.

(** Worker [i] takes a step; an index outside the pool does nothing. *)
Definition pool_step (force : bool) (i : nat) (p : Pool) : Pool :=
  match p_workers p !! i with
  | Some w =>
      let '(w', stats', fs') := worker_step force w (p_stats p) (p_fs p) in
      mkPool stats' fs' (<[i := w']> (p_workers p))
  | None => p
  end.

Definition run_schedule (force : bool) (schedule : list nat) (p : Pool) : Pool :=
  foldl (λ p i, pool_step force i p) p schedule.

(** Four steps of one worker in a row, and the same inside the pool. *)
Definition worker_run (force : bool) (w : Worker) (stats : DownloadStats)
    (fs : FileSystem) : Worker * DownloadStats * FileSystem :=
  let '(w1, s1, f1) := worker_step force w stats fs in
  let '(w2, s2, f2) := worker_step force w1 s1 f1 in
  let '(w3, s3, f3) := worker_step force w2 s2 f2 in
  worker_step force w3 s3 f3.

Definition pool_run (force : bool) (i : nat) (p : Pool) : Pool :=
  match p_workers p !! i with
  | Some w =>
      let '(w', stats', fs') := worker_run force w (p_stats p) (p_fs p) in
      mkPool stats' fs' (<[i := w']> (p_workers p))
  | None => p
  end.

(** The pool at [executor.submit] time: one worker for each task, with the
    behaviour of the transport for that task. *)
Definition init_pool (stats : DownloadStats) (fs : FileSystem)
    (jobs : list (Task * Session)) : Pool :=
  mkPool stats fs ((λ j, mkWorker j.1 j.2 Start) <$> jobs).

(** A schedule in which every worker named in [order] runs all four of
    its steps in a row. *)
Definition atomic_schedule (order : list nat) : list nat :=
  i ← order; [i; i; i; i].

Definition is_done (w : Worker) : bool :=
  match w_pc w with Done _ => true | _ => false end.

(** The worker has come back from [download_file] with a value. *)
Definition returned_value (w : Worker) : option WorkerResult :=
  match w_pc w with
  | Done (py.Ok r) => Some r
  | _ => None
  end.

(** The number of workers that have come back with a value. *)
Definition returned_count (ws : list Worker) : nat := length (omap returned_value ws).

(** No worker is between two of its steps, and the counters account for
    the workers that have come back. *)
Definition pool_consistent (p : Pool) : Prop :=
  Forall (λ w, w_pc w = Start ∨ is_done w = true) (p_workers p) ∧
  downloaded (p_stats p) + skipped (p_stats p) + failed (p_stats p)
  = Z.of_nat (returned_count (p_workers p)) ∧
  failed (p_stats p) = Z.of_nat (length (failed_files (p_stats p))).

(** Two tasks of the catalog and a transport that serves each of them a
    complete body, or a 404. *)
Definition two_tasks : list Task :=
  [make_task (pathlib.of_string "out") (mkReciter "Husary_128kbps" "Mahmoud Khalil Al-Hussary" "Murattal") 1 1;
   make_task (pathlib.of_string "out") (mkReciter "Husary_128kbps" "Mahmoud Khalil Al-Hussary" "Murattal") 1 2].

Definition serve_ok : Session := always (GetReturns (mkResponse 200 (body_of 1024) None)).
Definition serve_404 : Session := always (GetReturns (mkResponse 404 [] None)).

(** ** Races on the counters

    The three counters the workers update, and what it means for a
    schedule to keep the read and the store of one update together. *)

Inductive counter : Type := CDownloaded | CSkipped | CFailed.

Global Instance counter_eq_dec : EqDecision counter.
Proof. solve_decision. Defined.

(** The counter that the [if]/[else] of [download_worker] picks. *)
Definition counter_of (success skipped' : bool) : counter :=
  if success then if skipped' then CSkipped else CDownloaded else CFailed.

Definition counter_value (c : counter) (stats : DownloadStats) : Z :=
  match c with
  | CDownloaded => downloaded stats
  | CSkipped => skipped stats
  | CFailed => failed stats
  end.

(** The worker has read counter [c] and not yet stored it. *)
Definition loading (c : counter) (w : Worker) : bool :=
  match w_pc w with
  | Loaded v _ => bool_decide (counter_of v.1.1 v.1.2 = c)
  | _ => false
  end.

(** The worker has stored its increment of counter [c]. *)
Definition stored (c : counter) (w : Worker) : bool :=
  match w_pc w with
  | Stored _ => bool_decide (c = CFailed)
  | Done (py.Ok (_, success, skipped', _)) => bool_decide (counter_of success skipped' = c)
  | _ => false
  end.

(** The worker has appended its failure record. *)
Definition recorded (w : Worker) : bool :=
  match w_pc w with
  | Done (py.Ok (_, false, _, _)) => true
  | _ => false
  end.

Definition count_where (f : Worker → bool) (ws : list Worker) : nat :=
  length (List.filter f ws).

(** Worker [i] may take its next step without a race: if the step reads a
    counter, no worker has read that counter and not yet stored it. *)
Definition reads_free (i : nat) (p : Pool) : bool :=
  match p_workers p !! i with
  | Some w =>
      match w_pc w with
      | Fetched v =>
          bool_decide (count_where (loading (counter_of v.1.1 v.1.2)) (p_workers p) = 0%nat)
      | _ => true
      end
  | None => true
  end.

(** No update of a counter overlaps another update of the same counter
    anywhere in the schedule.  Fetches, updates of different counters and
    appends may alternate freely. *)
Fixpoint race_free (force : bool) (schedule : list nat) (p : Pool) : bool :=
  match schedule with
  | [] => true
  | i :: rest => reads_free i p && race_free force rest (pool_step force i p)
  end.

(** What a pool without races keeps true. *)
Definition counters_inv (p : Pool) : Prop :=
  (∀ c, counter_value c (p_stats p) = Z.of_nat (count_where (stored c) (p_workers p))) ∧
  (∀ c, (count_where (loading c) (p_workers p) ≤ 1)%nat) ∧
  Forall (λ w, match w_pc w with
               | Loaded v r => r = counter_value (counter_of v.1.1 v.1.2) (p_stats p)
               | Stored v => v.1.1 = false
               | _ => True
               end) (p_workers p) ∧
  length (failed_files (p_stats p)) = count_where recorded (p_workers p).

(** ** The run loop of [main] *)

(** What [main] prints and writes from the start of the download on. *)
Inductive output : Type :=
| PrintProgress (stats : DownloadStats)
| PrintWorkerError (e : py.exn)
| SaveProgress (progress_file : Path) (stats : DownloadStats)
| PrintInterrupted
| PrintSummary (stats : DownloadStats)
| SaveFailedReport (report : Path) (records : list FailureRecord)
| SaveManifest (manifest : Path) (reciters : list Reciter) (stats : DownloadStats).

(** [stats.save_progress(output_dir)] *)
Definition save_progress (stats : DownloadStats) (output_dir : Path) : output :=
  SaveProgress (output_dir /: ".download_progress.json") stats.

(** What happens while the pool is running: a worker takes a step, or the
    main thread receives the next completed future from [as_completed] and
    reads the clock. *)
Inductive action : Type :=
| WorkerStep (i : nat)
| Completed (i : nat) (current_time : Q).

Record LoopState : Type := mkLoopState {
  l_pool : Pool;
  last_print_time : Q;
  last_save_time : Q;
  l_out : list output
}.

(** The body of [for future in as_completed(futures)]. *)
Definition loop_body (output_dir : Path) (i : nat) (current_time : Q)
    (l : LoopState) : LoopState :=
  let stats := p_stats (l_pool l) in
  let out1 :=
    match w_pc <$> p_workers (l_pool l) !! i with
    | Some (Done (py.Raise e)) => [PrintWorkerError e]
    | _ => []
    end in
  let '(out2, last_print) :=
    if Qle_bool (inject_Z 2) (current_time - last_print_time l)
    then ([PrintProgress stats], current_time)
    else ([], last_print_time l) in
  let '(out3, last_save) :=
    if Qle_bool (inject_Z 30) (current_time - last_save_time l)
    then ([save_progress stats output_dir], current_time)
    else ([], last_save_time l) in
  mkLoopState (l_pool l) last_print last_save (l_out l ++ out1 ++ out2 ++ out3).

Definition run_action (force : bool) (output_dir : Path) (l : LoopState) (a : action)
  : LoopState :=
  match a with
  | WorkerStep i =>
      mkLoopState (pool_step force i (l_pool l)) (last_print_time l)
        (last_save_time l) (l_out l)
  | Completed i current_time => loop_body output_dir i current_time l
  end.

(** [--list-reciters], [--output], [--reciters], [--workers], [--dry-run]
    and [--force], as [argparse] leaves them in [args]. *)
Record Args : Type := mkArgs {
  list_reciters : bool;
  output_arg : option string;
  reciters_arg : option string;
  workers : Z;
  dry_run : bool;
  force_arg : bool
}.

(** [[r.strip() for r in args.reciters.split(",")]], when [args.reciters]
    is given and not empty. *)
Definition reciter_folders_of (args : Args) : option (list string) :=
  (λ s, py.strip <$> py.split ","%char s) <$> py.truthy (reciters_arg args).

(** What the surroundings supply to a run that downloads: the files on
    disk, the behaviour of the transport for each task (by its position in
    the catalog), the clock readings
    at the start, the interleaving of worker steps and completions, whether
    the loop was ended by Ctrl+C, and the steps the workers still take
    while the executor shuts down. *)
Record Run : Type := mkRun {
  r_fs : FileSystem;
  r_sessions : nat → Session;
  r_start_time : Q;
  r_loop_start : Q;
  r_actions : list action;
  r_interrupted : bool;
  r_shutdown : list nat
}.

(** One job for every task: [executor.submit(download_worker, task, ...)
    for task in tasks]. *)
Definition jobs_of (tasks : list Task) (sessions : nat → Session)
  : list (Task * Session) :=
  imap (λ i task, (task, sessions i)) tasks.

(** The loop [for future in as_completed(futures)] over the whole pool. *)
Definition run_loop (output_dir : Path) (force : bool) (tasks : list Task) (run : Run)
  : LoopState :=
  let stats0 := start DownloadStats_init (Z.of_nat (length tasks)) (r_start_time run) in
  let pool0 := init_pool stats0 (r_fs run) (jobs_of tasks (r_sessions run)) in
  foldl (run_action force output_dir)
        (mkLoopState pool0 0%Q (r_loop_start run) []) (r_actions run).

(** The pool when the [with ThreadPoolExecutor] block has been left. *)
Definition final_pool (output_dir : Path) (force : bool) (tasks : list Task) (run : Run)
  : Pool :=
  run_schedule force (r_shutdown run) (l_pool (run_loop output_dir force tasks run)).

(** The download phase of [main], from [stats = DownloadStats()] to the
    [return]. *)
Definition download_phase (selected : list Reciter) (output_dir : Path)
    (force : bool) (tasks : list Task) (run : Run) : Z * DownloadStats * list output :=
  let l1 := run_loop output_dir force tasks run in
  let stats := p_stats (final_pool output_dir force tasks run) in
  let out_end :=
    if r_interrupted run then [PrintInterrupted] else [PrintProgress stats] in
  let out_report :=
    match failed_files stats with
    | [] => []
    | _ => [SaveFailedReport (output_dir /: "failed_downloads.json") (failed_files stats)]
    end in
  let out_manifest := [SaveManifest (output_dir /: "manifest.json") selected stats] in
  (if failed stats =? 0 then 0 else 1, stats,
   l_out l1 ++ out_end ++ [PrintSummary stats] ++ out_report ++ out_manifest).

(** How [main] ends: with a return value, or in [parser.error]. *)
Inductive main_end : Type :=
| Returns (status : Z) (out : list output)
| ParserError.

(** [confirm.lower() == 'y'] *)
Definition confirmed (confirm : string) : bool :=
  String.eqb confirm "y" || String.eqb confirm "Y".

(** [main] after the arguments are parsed; [confirm] is the answer typed at
    the prompt.  [ThreadPoolExecutor(max_workers=args.workers)] raises
    [ValueError] unless the number of workers is positive. *)
Definition main (args : Args) (confirm : string) (run : Run) : py.result main_end :=
  if list_reciters args then mret (Returns 0 [])
  else match py.truthy (output_arg args) with
  | None => mret ParserError
  | Some output' =>
      let output_dir := pathlib.of_string output' in
      let reciters := select_reciters (reciter_folders_of args) in
      match reciter_folders_of args, reciters with
      | Some _, [] => mret (Returns 1 [])
      | _, _ =>
          tasks ← generate_download_tasks reciters output_dir;
          if dry_run args then mret (Returns 0 [])
          else if negb (confirmed confirm)
          then mret (Returns 0 [])
          else if workers args <=? 0 then py.Raise py.ValueError
          else
            let '(status, _, out) :=
              download_phase reciters output_dir (force_arg args) tasks run in
            mret (Returns status out)
      end
  end.

(** ** Reading a run *)

(** The worker steps among the actions of the loop. *)
Definition steps_of (actions : list action) : list nat :=
  omap (λ a, match a with WorkerStep i => Some i | Completed _ _ => None end) actions.

(** The clock readings of the loop iterations. *)
Definition completion_times (actions : list action) : list Q :=
  omap (λ a, match a with Completed _ t => Some t | WorkerStep _ => None end) actions.

(** The checkpoint as the help text words it, "progress is saved every 30
    seconds": the loop iterations at which at least 30 seconds have passed
    since the previous save, or since the start of the loop. *)
Fixpoint checkpoint_times (last_save : Q) (times : list Q) : list Q :=
  match times with
  | [] => []
  | t :: rest =>
      if Qle_bool (inject_Z 30) (t - last_save)
      then t :: checkpoint_times t rest
      else checkpoint_times last_save rest
  end.

(** The snapshots written to the progress file. *)
Definition checkpoint_writes (out : list output) : list DownloadStats :=
  omap (λ o, match o with SaveProgress _ stats => Some stats | _ => None end) out.

(** [download_file] has come back to the worker with a failure. *)
Definition has_failed (w : Worker) : bool :=
  match w_pc w with
  | Fetched v | Loaded v _ | Stored v => negb v.1.1
  | Done (py.Ok (_, success, _, _)) => negb success
  | _ => false
  end.

(** What each worker guarantees about the counter [failed], whose value is [f]. *)
Definition failed_counter_ok (f : Z) (w : Worker) : Prop :=
  match w_pc w with
  | Loaded v r => v.1.1 = false → 0 ≤ r
  | Stored v => v.1.1 = false ∧ 1 ≤ f
  | Done (py.Ok (_, success, _, _)) => success = false → 1 ≤ f
  | _ => True
  end.

Definition failed_counter_inv (p : Pool) : Prop :=
  0 ≤ failed (p_stats p) ∧
  Forall (failed_counter_ok (failed (p_stats p))) (p_workers p) ∧
  (failed (p_stats p) ≠ 0 → Exists (λ w, has_failed w = true) (p_workers p)).

(** A short run over [two_tasks]: each worker runs, its future completes,
    5 and 12 seconds after the start of the loop. *)
Definition short_run (interrupted : bool) : Run :=
  mkRun ∅ (λ _, serve_ok) 0%Q 0%Q
    [WorkerStep 0; WorkerStep 0; WorkerStep 0; WorkerStep 0; Completed 0 (inject_Z 5);
     WorkerStep 1; WorkerStep 1; WorkerStep 1; WorkerStep 1; Completed 1 (inject_Z 12)]
    interrupted [].

(** A longer run: the second future completes 31 seconds after the start. *)
Definition long_run : Run :=
  mkRun ∅ (λ i, match i with O => serve_ok | _ => serve_404 end) 0%Q 0%Q
    [WorkerStep 0; WorkerStep 0; WorkerStep 0; WorkerStep 0; Completed 0 (inject_Z 5);
     WorkerStep 1; WorkerStep 1; WorkerStep 1; WorkerStep 1; Completed 1 (inject_Z 31)]
    false [].

(** The body of an attempt that succeeds: a 200 whose stream ends without
    an error and whose complete body reaches the threshold. *)
Definition complete_body (g : get_outcome) : option bytes :=
  match g with
  | GetRaises _ => None
  | GetReturns response =>
      if status_code response =? 200 then
        match stream_error response with
        | Some _ => None
        | None => if MIN_VALID_FILE_SIZE <=? body_size response
                  then Some (concat (iter_content response)) else None
        end
      else None
  end.

(** The network trace of a call that made [length delays + 1] attempts. *)
Definition attempts_trace (url : string) (delays : list Z) : list event :=
  EvGet url :: (delays ≫= λ d, [EvSleep d; EvGet url]).

(** A status that is neither 200 nor 404. *)
Definition unexpected_status (g : get_outcome) : option Z :=
  match g with
  | GetReturns response =>
      if (status_code response =? 200) || (status_code response =? 404) then None
      else Some (status_code response)
  | GetRaises _ => None
  end.

(** What each worker guarantees about [failed_files], whose value is [fl]. *)
Definition failed_files_ok (fl : list FailureRecord) (w : Worker) : Prop :=
  match w_pc w with
  | Stored v => v.1.1 = false
  | Done (py.Ok (_, success, _, _)) => success = false → fl ≠ []
  | _ => True
  end.

Definition failed_files_inv (p : Pool) : Prop :=
  Forall (failed_files_ok (failed_files (p_stats p))) (p_workers p) ∧
  (failed_files (p_stats p) ≠ [] → Exists (λ w, has_failed w = true) (p_workers p)).

(** The failure report is among the things written. *)
Definition report_written (out : list output) : bool :=
  existsb (λ o, match o with SaveFailedReport _ _ => true | _ => false end) out.

(** The number written by a string of exactly three digits. *)
Definition three_digits (s : string) : option Z :=
  match s with
  | String c1 (String c2 (String c3 EmptyString)) =>
      Some (100 * digit_value c1 + 10 * digit_value c2 + digit_value c3)
  | _ => None
  end.

(** The name of the temporary sibling of a task's file. *)
Definition tmp_filename (surah_num ayah_num : Z) : string :=
  py.zfill (py.str surah_num) 3 +:+ py.zfill (py.str ayah_num) 3 +:+ ".tmp".

(** [output_path.with_suffix('.tmp')] where it is defined. *)
Definition temp_path_of (p : Path) : Path :=
  match pathlib.with_suffix p ".tmp" with
  | py.Ok temp_path => temp_path
  | py.Raise _ => p
  end.

(** File systems for the scenarios: a complete destination file, and a
    truncated one. *)
Definition present_fs : FileSystem := {[ dest := replicate 1024 Byte.x00 ]}.
Definition partial_fs : FileSystem := {[ dest := [Byte.x00] ]}.

Definition timeouts : Session := always (GetRaises py.Timeout).
Definition broken_stream : Session :=
  always (GetReturns (mkResponse 200 (body_of 3) (Some (py.RequestException "Connection broken")))).

Definition serve_500 : Session := always (GetReturns (mkResponse 500 [] None)).
Definition other_file : Path := pathlib.of_string "out/manifest.json".
Definition husary : Reciter :=
  mkReciter "Husary_128kbps" "Mahmoud Khalil Al-Hussary" "Murattal".

Definition husary_args : Args :=
  mkArgs false (Some "out") (Some "Husary_128kbps") 5 false false.

(** A run over a whole catalog of [n] tasks: every second task gets a 404,
    the others a complete body; the workers run one after the other, each
    future completing one second after the one before. *)
Definition whole_run (n : nat) : Run :=
  mkRun ∅ (λ i, if Nat.even i then serve_ok else serve_404) 0%Q 0%Q
    (i ← seq 0 n;
     [WorkerStep i; WorkerStep i; WorkerStep i; WorkerStep i;
      Completed i (inject_Z (Z.of_nat i))])
    false [].

Arguments ayah_index : simpl never.
Arguments catalog : simpl never.
Arguments RECITERS : simpl never.
Arguments SURAH_AYAH_COUNTS : simpl never.
Arguments select_reciters : simpl never.
(** * Properties *)

(** ** The streaming loop *)

Lemma write_chunks_spec temp_path chunks : ∀ (fs : FileSystem) content,
  fs !! temp_path = Some content →
  (write_chunks temp_path chunks fs).1 = <[temp_path := content ++ concat chunks]> fs ∧
  Forall (writes_only_to temp_path) (write_chunks temp_path chunks fs).2 ∧
  network_trace (write_chunks temp_path chunks fs).2 = [].
Proof.
  induction chunks as [|chunk rest IH]; intros fs content Hfs; simpl.
  - rewrite app_nil_r. split; [by rewrite insert_id | by split].
  - destruct chunk as [|b chunk'].
    + simpl. by apply IH.
    + set (fs1 := <[temp_path := _]> fs).
      destruct (IH fs1 (content ++ b :: chunk')) as (Hfs2 & Hev & Hnet).
      { subst fs1. by rewrite Hfs, lookup_insert_eq. }
      destruct (write_chunks temp_path rest fs1) as [fs2 ev]; simpl in *.
      split; [|split].
      * rewrite Hfs2. subst fs1. rewrite insert_insert_eq.
        f_equal. by rewrite <- app_assoc.
      * constructor; [done | exact Hev].
      * exact Hnet.
Qed.

(** ** One attempt *)

Lemma finally_clause_spec temp_path (fs fs' : FileSystem) ev :
  finally_clause temp_path fs = (fs', ev) →
  fs' = delete temp_path fs ∧ Forall (writes_only_to temp_path) ev ∧
  network_trace ev = [].
Proof.
  unfold finally_clause. destruct (fs !! temp_path) eqn:Hl; intros [= <- <-].
  - repeat split; by repeat constructor.
  - repeat split; [|constructor]. symmetry. by apply delete_id.
Qed.

Lemma except_clauses_spec retries attempt c c' ev :
  except_clauses retries attempt c = (c', ev) →
  (∀ temp_path, Forall (writes_only_to temp_path) ev) ∧
  match c' with
  | Return v => c = Return v ∨ ((∃ e, v = (false, false, Some e)) ∧ ∃ x, c = Raised x)
  | Continue => c = Continue ∨ ∃ x, c = Raised x
  | Raised e => c = Raised e
  end.
Proof.
  unfold except_clauses.
  destruct c as [v| |[]]; try (intros [= <- <-]; repeat split; eauto; fail);
    destruct (attempt <? retries - 1); intros [= <- <-];
    repeat split; eauto; intros; by repeat constructor.
Qed.

(** What the [try] block leaves behind: files other than the temporary
    file and the destination are untouched, and the destination changes
    only by the rename of a complete body. *)
Lemma try_block_spec url output_path temp_path retries attempt g
    (fs fs' : FileSystem) c ev :
  temp_path ≠ output_path →
  try_block url output_path temp_path retries attempt g fs = (c, fs', ev) →
  Forall (writes_only_to temp_path) ev ∧
  (∀ p, p ≠ temp_path → p ≠ output_path → fs' !! p = fs !! p) ∧
  match c with
  | Return v =>
      (v = (true, false, None) ∧ fs' !! temp_path = None ∧
       ∃ content, fs' !! output_path = Some content ∧
                  MIN_VALID_FILE_SIZE ≤ st_size content)
      ∨ ((∃ e, v = (false, false, Some e)) ∧ fs' !! output_path = fs !! output_path)
  | _ => fs' !! output_path = fs !! output_path
  end.
Proof.
  intros Hne. unfold try_block.
  destruct g as [e|response].
  { intros [= <- <- <-]. repeat split; by repeat constructor. }
  destruct (status_code response =? 200).
  2:{ destruct (status_code response =? 404); [|destruct (attempt <? retries - 1)];
      intros [= <- <- <-]; repeat split; try (by repeat constructor);
      right; eauto. }
  destruct (write_chunks_spec temp_path (iter_content response)
              (<[temp_path := []]> fs) [])
    as (Hfs2 & Hev & _); [by rewrite lookup_insert_eq|].
  destruct (write_chunks temp_path (iter_content response) (<[temp_path:=[]]> fs))
    as [fs2 written]; simpl in *.
  rewrite insert_insert_eq in Hfs2.
  assert (Hother : ∀ p, p ≠ temp_path → fs2 !! p = fs !! p).
  { intros p Hp. by rewrite Hfs2, lookup_insert_ne. }
  assert (Hevs : Forall (writes_only_to temp_path)
                   (EvGet url :: EvOpen temp_path :: written)).
  { by repeat constructor. }
  destruct (stream_error response).
  { intros [= <- <- <-]. repeat split; auto. }
  assert (Htemp : fs2 !! temp_path = Some (concat (iter_content response))).
  { by rewrite Hfs2, lookup_insert_eq. }
  unfold rename. rewrite !Htemp.
  destruct (MIN_VALID_FILE_SIZE <=? st_size (concat (iter_content response))) eqn:Hsz;
    intros [= <- <- <-].
  - repeat split.
    + apply (Forall_app_2 _ (_ :: _ :: _)); [done | by repeat constructor].
    + intros p Hp1 Hp2. rewrite lookup_insert_ne, lookup_delete_ne by done. auto.
    + left. split; [done|]. split.
      * by rewrite lookup_insert_ne, lookup_delete_eq.
      * eexists. rewrite lookup_insert_eq. split; [done|]. by apply Z.leb_le.
  - repeat split.
    + apply (Forall_app_2 _ (_ :: _ :: _)); [done | by repeat constructor].
    + intros p Hp1 Hp2. rewrite lookup_delete_ne by done. auto.
    + right. split; [eauto|]. rewrite lookup_delete_ne by done. auto.
Qed.

Lemma attempt_body_spec url output_path temp_path retries attempt g
    (fs fs' : FileSystem) c ev :
  temp_path ≠ output_path →
  attempt_body url output_path temp_path retries attempt g fs = (c, fs', ev) →
  Forall (writes_only_to temp_path) ev ∧
  fs' !! temp_path = None ∧
  (∀ p, p ≠ temp_path → p ≠ output_path → fs' !! p = fs !! p) ∧
  match c with
  | Return v =>
      (v = (true, false, None) ∧
       ∃ content, fs' !! output_path = Some content ∧
                  MIN_VALID_FILE_SIZE ≤ st_size content)
      ∨ ((∃ e, v = (false, false, Some e)) ∧ fs' !! output_path = fs !! output_path)
  | _ => fs' !! output_path = fs !! output_path
  end.
Proof.
  intros Hne. unfold attempt_body.
  destruct (try_block _ _ _ _ _ _ _) as [[c0 fs1] ev1] eqn:Ht.
  destruct (except_clauses _ _ _) as [c1 ev2] eqn:He.
  destruct (finally_clause _ _) as [fs2 ev3] eqn:Hf.
  intros [= <- <- <-].
  apply (try_block_spec _ _ _ _ _ _ _ _ _ _ Hne) in Ht as (Hev1 & Hfr & Hc0).
  apply except_clauses_spec in He as (Hev2 & Hc1).
  apply finally_clause_spec in Hf as (-> & Hev3 & _).
  split; [by rewrite !Forall_app|].
  split; [by rewrite lookup_delete_eq|].
  split; [intros p Hp1 Hp2; rewrite lookup_delete_ne by done; auto|].
  rewrite lookup_delete_ne by done.
  destruct c1 as [v| |e].
  - destruct Hc1 as [->|Hv].
    + destruct Hc0 as [(-> & _ & Hc)|Hc]; [left|right]; done.
    + destruct Hv as (Hv & x & ->). by right.
  - by destruct Hc1 as [->|[x ->]].
  - by subst c0.
Qed.

Lemma try_block_first url output_path temp_path retries attempt g (fs : FileSystem) :
  ∃ ev', (try_block url output_path temp_path retries attempt g fs).2 = EvGet url :: ev'.
Proof.
  unfold try_block. destruct g as [e|response]; [by eexists|].
  destruct (status_code response =? 200).
  - destruct (write_chunks _ _ _) as [fs2 written].
    destruct (stream_error response); [by eexists|].
    destruct (fs2 !! temp_path); [|by eexists].
    destruct (_ <=? _); by eexists.
  - destruct (_ =? 404); [by eexists|]. destruct (_ <? _); by eexists.
Qed.

Lemma attempt_body_first url output_path temp_path retries attempt g (fs : FileSystem) :
  ∃ ev', (attempt_body url output_path temp_path retries attempt g fs).2 = EvGet url :: ev'.
Proof.
  unfold attempt_body.
  destruct (try_block_first url output_path temp_path retries attempt g fs) as [ev' Hev].
  destruct (try_block _ _ _ _ _ _ _) as [[c0 fs1] ev1]. simpl in Hev. subst ev1.
  destruct (except_clauses _ _ _) as [c1 ev2].
  destruct (finally_clause _ _) as [fs2 ev3]. by eexists.
Qed.

Lemma try_block_shape url output_path temp_path retries attempt g (fs : FileSystem) v :
  (try_block url output_path temp_path retries attempt g fs).1.1 = Return v →
  fetched_shape v.
Proof.
  unfold try_block, fetched_shape. destruct g as [e|response]; [done|].
  destruct (status_code response =? 200).
  - destruct (write_chunks _ _ _) as [fs2 written].
    destruct (stream_error response); [done|].
    destruct (fs2 !! temp_path); [|done].
    destruct (_ <=? _); intros [= <-]; eauto.
  - destruct (_ =? 404); [|destruct (_ <? _)]; try done; intros [= <-]; eauto.
Qed.

Lemma attempt_body_shape url output_path temp_path retries attempt g (fs : FileSystem) v :
  (attempt_body url output_path temp_path retries attempt g fs).1.1 = Return v →
  fetched_shape v.
Proof.
  unfold attempt_body.
  pose proof (try_block_shape url output_path temp_path retries attempt g fs) as Ht.
  destruct (try_block _ _ _ _ _ _ _) as [[c0 fs1] ev1]. simpl in Ht.
  destruct (except_clauses _ _ _) as [c1 ev2] eqn:He.
  destruct (finally_clause _ _) as [fs2 ev3]. simpl. intros ->.
  apply except_clauses_spec in He as (_ & [->|(Hv & _)]); [by apply Ht|].
  by right.
Qed.

(** ** The retry loop *)

Lemma attempts_shape url output_path temp_path retries session todo :
  ∀ (fs : FileSystem) v,
  (attempts url output_path temp_path retries session todo fs).1.1 = py.Ok v →
  fetched_shape v.
Proof.
  induction todo as [|attempt rest IH]; intros fs v; simpl.
  - intros [= <-]. right. eauto.
  - pose proof (attempt_body_shape url output_path temp_path retries attempt
                  (session attempt) fs) as Hs.
    destruct (attempt_body _ _ _ _ _ _ _) as [[c fs1] ev1]. simpl in Hs.
    destruct c as [v0| |e]; simpl.
    + intros [= <-]. by apply Hs.
    + specialize (IH fs1 v).
      destruct (attempts _ _ _ _ _ rest fs1) as [[r fs2] ev2]. exact IH.
    + done.
Qed.

Lemma attempts_spec url output_path temp_path retries session todo :
  temp_path ≠ output_path →
  ∀ (fs fs' : FileSystem) r ev,
  attempts url output_path temp_path retries session todo fs = (r, fs', ev) →
  Forall (writes_only_to temp_path) ev ∧
  (∀ p, p ≠ temp_path → p ≠ output_path → fs' !! p = fs !! p) ∧
  (fs !! temp_path = None ∨ todo ≠ [] → fs' !! temp_path = None) ∧
  match r with
  | py.Ok v =>
      (v = (true, false, None) ∧
       ∃ content, fs' !! output_path = Some content ∧
                  MIN_VALID_FILE_SIZE ≤ st_size content)
      ∨ ((∃ e, v = (false, false, Some e)) ∧ fs' !! output_path = fs !! output_path)
  | py.Raise _ => fs' !! output_path = fs !! output_path
  end.
Proof.
  intros Hne. induction todo as [|attempt rest IH]; intros fs fs' r ev; simpl.
  - intros [= <- <- <-]. repeat split; [constructor| |right; eauto].
    by intros [?|?].
  - destruct (attempt_body _ _ _ _ _ _ _) as [[c fs1] ev1] eqn:Ha.
    apply (attempt_body_spec _ _ _ _ _ _ _ _ _ _ Hne) in Ha
      as (Hev1 & Htmp & Hfr & Hc).
    destruct c as [v| |e].
    + intros [= <- <- <-]. repeat split; done.
    + destruct (attempts _ _ _ _ _ rest fs1) as [[r2 fs2] ev2] eqn:Hr.
      intros [= <- <- <-].
      apply IH in Hr as (Hev2 & Hfr2 & Htmp2 & Hr2).
      split; [by apply Forall_app_2|].
      split; [intros p Hp1 Hp2; by rewrite Hfr2, Hfr|].
      split; [intros _; apply Htmp2; by left|].
      destruct r2 as [v|e]; [|congruence].
      destruct Hr2 as [Hr2|[Hv Hr2]]; [by left|right; split; congruence].
    + intros [= <- <- <-]. repeat split; done.
Qed.

Lemma range_0_pos retries : 0 < retries → py.range 0 retries = 0 :: py.range 1 retries.
Proof.
  intros H. unfold py.range. rewrite seqZ_cons by lia.
  f_equal. f_equal. lia.
Qed.

(** ** [download_file] *)

Lemma fetch_spec url output_path temp_path session retries (fs fs' : FileSystem) r ev :
  pathlib.with_suffix output_path ".tmp" = py.Ok temp_path →
  temp_path ≠ output_path →
  fetch url output_path session retries fs = (r, fs', ev) →
  Forall (writes_only_to temp_path) ev ∧
  (∀ p, p ≠ temp_path → p ≠ output_path → fs' !! p = fs !! p) ∧
  (0 < retries → fs' !! temp_path = None) ∧
  match r with
  | py.Ok v =>
      (v = (true, false, None) ∧
       ∃ content, fs' !! output_path = Some content ∧
                  MIN_VALID_FILE_SIZE ≤ st_size content)
      ∨ ((∃ e, v = (false, false, Some e)) ∧ fs' !! output_path = fs !! output_path)
  | py.Raise _ => fs' !! output_path = fs !! output_path
  end.
Proof.
  intros Hsuf Hne. unfold fetch. rewrite Hsuf.
  destruct (attempts _ _ _ _ _ _ _) as [[r1 fs1] ev1] eqn:Ha.
  intros [= <- <- <-].
  apply (attempts_spec _ _ _ _ _ _ Hne) in Ha as (Hev & Hfr & Htmp & Hr).
  split; [by constructor|]. split; [done|]. split; [|done].
  intros Hpos. apply Htmp. right. by rewrite range_0_pos.
Qed.

Lemma fetch_shape url output_path session retries (fs : FileSystem) v :
  (fetch url output_path session retries fs).1.1 = py.Ok v → fetched_shape v.
Proof.
  unfold fetch. destruct (pathlib.with_suffix _ _) as [temp_path|e]; [|done].
  pose proof (attempts_shape url output_path temp_path retries session
                (py.range 0 retries) fs v) as Hs.
  destruct (attempts _ _ _ _ _ _ _) as [[r1 fs1] ev1]. exact Hs.
Qed.

Lemma fetch_first url output_path temp_path session retries (fs : FileSystem) :
  pathlib.with_suffix output_path ".tmp" = py.Ok temp_path →
  0 < retries →
  ∃ ev', (fetch url output_path session retries fs).2
         = EvMkdir (pathlib.parent output_path) :: EvGet url :: ev'.
Proof.
  intros Hsuf Hpos. unfold fetch. rewrite Hsuf, range_0_pos by done. simpl.
  destruct (attempt_body_first url output_path temp_path retries 0 (session 0) fs)
    as [ev' Hev].
  destruct (attempt_body _ _ _ _ _ _ _) as [[c fs1] ev1]. simpl in Hev. subst ev1.
  destruct c; [by eexists| |by eexists].
  destruct (attempts _ _ _ _ _ _ _) as [[r2 fs2] ev2]. by eexists.
Qed.

(** C10. Every value returned by [download_file] is [(True, True, None)],
    [(True, False, None)] or [(False, False, e)] with a string [e]; so
    [skipped] implies [success], and the error is [None] exactly when
    [success] holds.  An exception that leaves the call returns no value. *)
Theorem download_file_outcome_shape url output_path session retries force
    (fs : FileSystem) :
  match (download_file url output_path session retries force fs).1.1 with
  | py.Ok v =>
      outcome_shape v ∧
      (v.1.2 = true → v.1.1 = true) ∧
      (v.2 = None ↔ v.1.1 = true)
  | py.Raise _ => True
  end.
Proof.
  assert (Hfetched : ∀ v, fetched_shape v →
            outcome_shape v ∧ (v.1.2 = true → v.1.1 = true) ∧
            (v.2 = None ↔ v.1.1 = true)).
  { intros v [->|[e ->]]; (split; [unfold outcome_shape; eauto|]); simpl;
      split; try done. }
  unfold download_file.
  destruct (if force then None else fs !! output_path) as [content|].
  - destruct (MIN_VALID_FILE_SIZE <=? st_size content).
    + simpl. split; [by left|]. done.
    + pose proof (fetch_shape url output_path session retries
                    (delete output_path fs)) as Hs.
      destruct (fetch _ _ _ _ _) as [[r fs1] ev]. simpl in *.
      destruct r as [v|e]; [|done]. by apply Hfetched, Hs.
  - pose proof (fetch_shape url output_path session retries fs) as Hs.
    destruct (fetch _ _ _ _ _) as [[r fs1] ev]. simpl in *.
    destruct r as [v|e]; [|done]. by apply Hfetched, Hs.
Qed.

(** C1. With [force] off and a destination file of at least 1024 bytes,
    [download_file] returns [(True, True, None)], leaves the files as they
    are and makes no call at all, so no network call.  With a destination
    file below 1024 bytes the first thing it does is to unlink it, the
    value it returns is never [(True, True, None)], and (for a path with a
    name and at least one permitted attempt) it goes on to create the
    parent directory and to issue the GET. *)
Theorem download_file_resume url output_path session retries
    (fs : FileSystem) content :
  fs !! output_path = Some content →
  let '(r, fs', ev) := download_file url output_path session retries false fs in
  (MIN_VALID_FILE_SIZE ≤ st_size content →
     r = py.Ok (true, true, None) ∧ fs' = fs ∧ ev = []) ∧
  (st_size content < MIN_VALID_FILE_SIZE →
     r ≠ py.Ok (true, true, None) ∧
     (∃ ev', ev = EvUnlink output_path :: ev') ∧
     (0 < retries →
      pathlib.name output_path ≠ EmptyString →
      ∃ ev', ev = EvUnlink output_path :: EvMkdir (pathlib.parent output_path)
                  :: EvGet url :: ev')).
Proof.
  intros Hfs. unfold download_file. rewrite Hfs.
  destruct (MIN_VALID_FILE_SIZE <=? st_size content) eqn:Hsz.
  - apply Z.leb_le in Hsz. split; [done|lia].
  - apply Z.leb_gt in Hsz.
    pose proof (fetch_shape url output_path session retries
                  (delete output_path fs)) as Hs.
    pose proof (fetch_first url output_path) as Hf.
    destruct (fetch _ _ _ _ _) as [[r fs1] ev] eqn:He.
    split; [lia|]. intros _. split; [|split].
    + intros ->. by destruct (Hs _ eq_refl) as [?|[? ?]].
    + by eexists.
    + intros Hpos Hname.
      assert (∃ temp_path, pathlib.with_suffix output_path ".tmp" = py.Ok temp_path)
        as [temp_path Hsuf].
      { unfold pathlib.with_suffix. simpl.
        destruct (String.eqb (pathlib.name output_path) EmptyString) eqn:Hn;
          [by apply String.eqb_eq in Hn | by eexists]. }
      destruct (Hf temp_path session retries (delete output_path fs) Hsuf Hpos)
        as [ev' Hev].
      rewrite He in Hev. simpl in Hev. subst ev. by eexists.
Qed.

(** The pre-check of [download_file] when the destination is not reported
    as already present: an undersized destination is unlinked (only with
    [force] off), then the fetch runs. *)
Lemma download_file_not_present url output_path session retries force (fs : FileSystem) :
  already_present force output_path fs = false →
  ∃ fs0 ev0,
    download_file url output_path session retries force fs
    = (let '(r, fs1, ev) := fetch url output_path session retries fs0 in
       (r, fs1, ev0 ++ ev)) ∧
    network_trace ev0 = [] ∧
    Forall (λ e, e = EvUnlink output_path) ev0 ∧
    (∀ p, p ≠ output_path → fs0 !! p = fs !! p) ∧
    fs0 !! output_path = (if force then fs !! output_path else None).
Proof.
  unfold already_present, download_file. destruct force; simpl.
  - intros _. exists fs, []. split; [by destruct (fetch _ _ _ _ _) as [[??]?]|done].
  - destruct (fs !! output_path) as [content|] eqn:Hfs.
    + intros ->. exists (delete output_path fs), [EvUnlink output_path].
      split; [by destruct (fetch _ _ _ _ _) as [[??]?]|].
      split; [done|]. split; [by repeat constructor|].
      split; [intros p Hp; by rewrite lookup_delete_ne|by rewrite lookup_delete_eq].
    + intros _. exists fs, []. split; [by destruct (fetch _ _ _ _ _) as [[??]?]|done].
Qed.

(** C4, as the code has it.  For a destination whose temporary sibling
    (the same path with the suffix [.tmp]) is another path, and with at
    least one permitted attempt: every file that is opened or written is
    the temporary sibling, never the destination; a call that returns a new
    download leaves a complete body at the destination and no temporary
    file; every other exit that is not a skip (a failure value or an
    exception) leaves no temporary file and leaves the destination as the
    pre-check left it: absent with [force] off, as it was before the call
    with [force] on. *)
Theorem download_file_atomic url output_path temp_path session retries force
    (fs : FileSystem) :
  pathlib.with_suffix output_path ".tmp" = py.Ok temp_path →
  temp_path ≠ output_path →
  0 < retries →
  let '(r, fs', ev) := download_file url output_path session retries force fs in
  Forall (writes_only_to temp_path) ev ∧
  (∀ chunk, (EvOpen output_path ∉ ev) ∧ (EvWrite output_path chunk ∉ ev)) ∧
  (r = py.Ok (true, false, None) →
     fs' !! temp_path = None ∧
     ∃ content, fs' !! output_path = Some content ∧
                MIN_VALID_FILE_SIZE ≤ st_size content) ∧
  (r ≠ py.Ok (true, false, None) → r ≠ py.Ok (true, true, None) →
     fs' !! temp_path = None ∧
     fs' !! output_path = (if force then fs !! output_path else None)).
Proof.
  intros Hsuf Hne Hpos.
  destruct (already_present force output_path fs) eqn:Hap.
  { unfold already_present in Hap. unfold download_file.
    destruct force; [done|]. simpl in Hap.
    destruct (fs !! output_path) as [content|]; [|done]. rewrite Hap.
    split; [constructor|].
    split; [intros chunk; split; by intros ?%elem_of_nil|]. split; done. }
  destruct (download_file_not_present url output_path session retries force fs Hap)
    as (fs0 & ev0 & -> & _ & Hev0 & Hfr0 & Hout0).
  destruct (fetch _ _ _ _ _) as [[r fs1] ev] eqn:Hf.
  apply (fetch_spec _ _ _ _ _ _ _ _ _ Hsuf Hne) in Hf as (Hev & Hfr & Htmp & Hr).
  assert (Hall : Forall (writes_only_to temp_path) (ev0 ++ ev)).
  { apply Forall_app_2; [|done].
    eapply Forall_impl; [exact Hev0|]. by intros e ->. }
  split; [done|]. split; [|split].
  - intros chunk. rewrite Forall_forall in Hall.
    split; intros He; apply Hall in He; simpl in He; congruence.
  - intros ->. destruct Hr as [(_ & Hc)|([e [=]] & _)]. auto.
  - intros Hn1 Hn2. split; [auto|].
    rewrite <- Hout0.
    destruct r as [v|e]; [|done].
    destruct Hr as [(-> & _)|(_ & Hc)]; [done|exact Hc].
Qed.

(** ** Retried and permanent failures *)

Lemma network_trace_app ev1 ev2 :
  network_trace (ev1 ++ ev2) = network_trace ev1 ++ network_trace ev2.
Proof. apply List.filter_app. Qed.

Lemma with_suffix_tmp_ok output_path :
  pathlib.name output_path ≠ EmptyString →
  ∃ temp_path, pathlib.with_suffix output_path ".tmp" = py.Ok temp_path.
Proof.
  intros Hname. unfold pathlib.with_suffix. simpl.
  destruct (String.eqb (pathlib.name output_path) EmptyString) eqn:Hn;
    [by apply String.eqb_eq in Hn | by eexists].
Qed.

Lemma attempt_body_transient url output_path temp_path retries attempt g
    (fs : FileSystem) msg :
  transient_error g = Some msg →
  let '(c, fs', ev) := attempt_body url output_path temp_path retries attempt g fs in
  c = (if attempt <? retries - 1 then Continue else Return (false, false, Some msg)) ∧
  network_trace ev
  = EvGet url :: (if attempt <? retries - 1 then [EvSleep (2 * (attempt + 1))] else []).
Proof.
  intros Hg. unfold attempt_body.
  assert (∃ e fs1 ev1,
            try_block url output_path temp_path retries attempt g fs
            = (Raised e, fs1, ev1) ∧ network_trace ev1 = [EvGet url] ∧
            (e = py.Timeout ∧ msg = "Timeout" ∨ e = py.RequestException msg))
    as (e & fs1 & ev1 & -> & Hn1 & He).
  { unfold try_block, transient_error in *. destruct g as [e|response].
    - exists e, fs, [EvGet url]. split; [done|]. split; [done|].
      destruct e; naive_solver.
    - destruct (status_code response =? 200); [|done].
      destruct (write_chunks_spec temp_path (iter_content response)
                  (<[temp_path := []]> fs) [])
        as (_ & _ & Hnet); [by rewrite lookup_insert_eq|].
      destruct (write_chunks _ _ _) as [fs2 written]. simpl in Hnet.
      destruct (stream_error response) as [e|]; [|done].
      exists e, fs2, (EvGet url :: EvOpen temp_path :: written).
      split; [done|]. split; [unfold network_trace in *; simpl; by rewrite Hnet|].
      destruct e; naive_solver. }
  destruct (finally_clause temp_path fs1) as [fs2 ev3] eqn:Hf.
  apply finally_clause_spec in Hf as (_ & _ & Hn3).
  destruct He as [[-> ->]| ->]; simpl; destruct (attempt <? retries - 1);
    (split; [done|]); rewrite !network_trace_app, Hn1, Hn3; done.
Qed.

Lemma attempt_body_permanent url output_path temp_path retries attempt g
    (fs : FileSystem) msg :
  permanent_error g = Some msg →
  let '(c, fs', ev) := attempt_body url output_path temp_path retries attempt g fs in
  c = Return (false, false, Some msg) ∧ network_trace ev = [EvGet url].
Proof.
  intros Hg. unfold attempt_body.
  assert (∃ fs1 ev1,
            try_block url output_path temp_path retries attempt g fs
            = (Return (false, false, Some msg), fs1, ev1) ∧
            network_trace ev1 = [EvGet url])
    as (fs1 & ev1 & -> & Hn1).
  { unfold try_block, permanent_error in *. destruct g as [e|response]; [done|].
    destruct (status_code response =? 200).
    - destruct (write_chunks_spec temp_path (iter_content response)
                  (<[temp_path := []]> fs) [])
        as (Hfs2 & _ & Hnet); [by rewrite lookup_insert_eq|].
      destruct (write_chunks _ _ _) as [fs2 written]. simpl in Hnet, Hfs2.
      destruct (stream_error response) as [e|]; [done|].
      rewrite Hfs2, lookup_insert_eq. simpl. unfold body_size in Hg.
      destruct (_ <? MIN_VALID_FILE_SIZE) eqn:Hlt; [|done].
      apply Z.ltb_lt in Hlt. injection Hg as <-.
      destruct (MIN_VALID_FILE_SIZE <=? _) eqn:Hle; [apply Z.leb_le in Hle; lia|].
      do 2 eexists. split; [done|].
      unfold network_trace in *. simpl. rewrite List.filter_app, Hnet. done.
    - destruct (status_code response =? 404); [|done].
      injection Hg as <-. by do 2 eexists. }
  destruct (finally_clause temp_path fs1) as [fs2 ev3] eqn:Hf.
  apply finally_clause_spec in Hf as (_ & _ & Hn3). simpl.
  split; [done|]. by rewrite !network_trace_app, Hn1, Hn3.
Qed.

Lemma range_0_3 : py.range 0 3 = [0; 1; 2].
Proof. reflexivity. Qed.

(** C2. When the call is not a skip and each of the three attempts times
    out or raises another request exception (at the GET or while the body
    streams), [download_file] issues exactly three GETs, sleeps 2 seconds
    and then 4 seconds between them, and returns a failure that carries the
    error of the third attempt.  What the transport would do at a later
    attempt plays no part: there is no fourth GET. *)
Theorem download_file_transient_retry url output_path session force
    (fs : FileSystem) :
  pathlib.name output_path ≠ EmptyString →
  already_present force output_path fs = false →
  (∀ attempt, 0 ≤ attempt < 3 → is_Some (transient_error (session attempt))) →
  let '(r, fs', ev) := download_file url output_path session 3 force fs in
  r = py.Ok (false, false, transient_error (session 2)) ∧
  network_trace ev = [EvGet url; EvSleep 2; EvGet url; EvSleep 4; EvGet url].
Proof.
  intros Hname Hap Hsess.
  destruct (with_suffix_tmp_ok _ Hname) as [temp_path Hsuf].
  destruct (download_file_not_present url output_path session 3 force fs Hap)
    as (fs0 & ev0 & -> & Hn0 & _).
  unfold fetch. rewrite Hsuf, range_0_3. simpl.
  destruct (Hsess 0 ltac:(lia)) as [m0 H0].
  destruct (Hsess 1 ltac:(lia)) as [m1 H1].
  destruct (Hsess 2 ltac:(lia)) as [m2 H2].
  pose proof (attempt_body_transient url output_path temp_path 3 0 _ fs0 _ H0) as A0.
  destruct (attempt_body _ _ _ _ 0 _ _) as [[c0 fs1] ev1].
  destruct A0 as [-> T0]. simpl.
  pose proof (attempt_body_transient url output_path temp_path 3 1 _ fs1 _ H1) as A1.
  destruct (attempt_body _ _ _ _ 1 _ _) as [[c1 fs2] ev2].
  destruct A1 as [-> T1]. simpl.
  pose proof (attempt_body_transient url output_path temp_path 3 2 _ fs2 _ H2) as A2.
  destruct (attempt_body _ _ _ _ 2 _ _) as [[c2 fs3] ev3].
  destruct A2 as [-> T2]. simpl.
  split; [by rewrite H2|].
  change (EvMkdir ?p :: ?l) with ([EvMkdir p] ++ l).
  rewrite !network_trace_app, Hn0, T0, T1, T2. done.
Qed.

(** C3. When the call is not a skip and the first response is a 404, or a
    200 whose complete body is below 1024 bytes, [download_file] returns a
    failure after a single GET: the log holds no second GET and no sleep. *)
Theorem download_file_permanent_failure url output_path session retries force
    (fs : FileSystem) :
  pathlib.name output_path ≠ EmptyString →
  already_present force output_path fs = false →
  0 < retries →
  is_Some (permanent_error (session 0)) →
  let '(r, fs', ev) := download_file url output_path session retries force fs in
  r = py.Ok (false, false, permanent_error (session 0)) ∧
  network_trace ev = [EvGet url].
Proof.
  intros Hname Hap Hpos [msg Hperm].
  destruct (with_suffix_tmp_ok _ Hname) as [temp_path Hsuf].
  destruct (download_file_not_present url output_path session retries force fs Hap)
    as (fs0 & ev0 & -> & Hn0 & _).
  unfold fetch. rewrite Hsuf, range_0_pos by done. simpl.
  pose proof (attempt_body_permanent url output_path temp_path retries 0 _ fs0 _ Hperm)
    as A0.
  destruct (attempt_body _ _ _ _ 0 _ _) as [[c0 fs1] ev1].
  destruct A0 as [-> T0]. simpl.
  split; [by rewrite Hperm|].
  change (EvMkdir ?p :: ?l) with ([EvMkdir p] ++ l).
  rewrite !network_trace_app, Hn0, T0. done.
Qed.

(** ** The task catalog *)

Lemma for_each_append {A B} (f : A → list B) (body : list B → A → py.result (list B)) xs :
  (∀ acc x, x ∈ xs → body acc x = py.Ok (acc ++ f x)) →
  ∀ acc, py.for_each xs body acc = py.Ok (acc ++ (xs ≫= f)).
Proof.
  induction xs as [|x xs IH]; intros Hbody acc; simpl.
  - by rewrite app_nil_r.
  - rewrite Hbody by left. simpl. rewrite IH.
    + by rewrite app_assoc.
    + intros acc' y Hy. apply Hbody. by right.
Qed.

Lemma fmap_of_bind {A B C} (f : B → C) (g : A → list B) (l : list A) :
  f <$> (l ≫= g) = l ≫= (λ x, f <$> g x).
Proof. induction l as [|x l IH]; csimpl; [done|]. by rewrite fmap_app, IH. Qed.

Lemma SURAH_AYAH_COUNTS_length : length SURAH_AYAH_COUNTS = 114%nat.
Proof. reflexivity. Qed.

(** The subscript in the loop is always in range. *)
Lemma getitem_surah surah_num :
  surah_num ∈ seqZ 1 114 →
  py.getitem SURAH_AYAH_COUNTS (surah_num - 1) = py.Ok (ayah_count_of surah_num).
Proof.
  rewrite elem_of_seqZ. intros Hs. unfold py.getitem, ayah_count_of.
  rewrite SURAH_AYAH_COUNTS_length.
  destruct (surah_num - 1 <? 0) eqn:H1; [apply Z.ltb_lt in H1; lia|].
  rewrite H1. simpl.
  destruct (Z.of_nat 114 <=? surah_num - 1) eqn:H2; [apply Z.leb_le in H2; lia|].
  destruct (SURAH_AYAH_COUNTS !! Z.to_nat (surah_num - 1)) eqn:Hl; [done|].
  apply lookup_ge_None in Hl. rewrite SURAH_AYAH_COUNTS_length in Hl. lia.
Qed.

Lemma generate_download_tasks_catalog reciters output_dir :
  generate_download_tasks reciters output_dir = py.Ok (catalog reciters output_dir).
Proof.
  unfold generate_download_tasks, catalog.
  rewrite (for_each_append
             (λ reciter, (λ sa, make_task output_dir reciter sa.1 sa.2) <$> ayah_index));
    [done|].
  intros acc reciter _. change (py.range 1 115) with (seqZ 1 114).
  rewrite (for_each_append
             (λ surah_num, ayah_num ← seqZ 1 (ayah_count_of surah_num);
                           [make_task output_dir reciter surah_num ayah_num])).
  - apply (f_equal py.Ok), (f_equal (app acc)). unfold ayah_index.
    rewrite fmap_of_bind. apply list_bind_ext; [|done]. intros surah_num.
    rewrite fmap_of_bind. by apply list_bind_ext.
  - intros acc' surah_num Hs. rewrite getitem_surah by done. simpl.
    unfold py.range. replace (ayah_count_of surah_num + 1 - 1) with (ayah_count_of surah_num) by lia.
    by apply for_each_append.
Qed.

Lemma ayah_index_length : Z.of_nat (length ayah_index) = 6236.
Proof. vm_compute. reflexivity. Qed.

Lemma catalog_length reciters output_dir :
  Z.of_nat (length (catalog reciters output_dir)) = Z.of_nat (length reciters) * 6236.
Proof.
  unfold catalog. induction reciters as [|r rs IH]; [done|].
  rewrite bind_cons, length_app, length_fmap, Nat2Z.inj_add, IH, ayah_index_length.
  rewrite length_cons. lia.
Qed.

(** C5. [generate_download_tasks] raises nothing and is a function of its
    two arguments alone: the list it returns is the catalog, one task for
    each reciter, surah and ayah, by reciter in the order given, then surah
    1 to 114, then ayah 1 to the surah's count; its length is the number of
    reciters times [sum(SURAH_AYAH_COUNTS)], which is 6236. *)
Theorem generate_download_tasks_deterministic_ordered reciters output_dir :
  generate_download_tasks reciters output_dir = py.Ok (catalog reciters output_dir) ∧
  (λ t, (reciter_name t, surah t, ayah t)) <$> catalog reciters output_dir
  = (reciter ← reciters;
     surah_num ← seqZ 1 114;
     ayah_num ← seqZ 1 (ayah_count_of surah_num);
     [(name reciter, surah_num, ayah_num)]) ∧
  Z.of_nat (length (catalog reciters output_dir))
  = Z.of_nat (length reciters) * py_sum SURAH_AYAH_COUNTS ∧
  py_sum SURAH_AYAH_COUNTS = 6236.
Proof.
  split; [apply generate_download_tasks_catalog|].
  split; [|split; [|reflexivity]].
  - unfold catalog, ayah_index. rewrite fmap_of_bind.
    apply list_bind_ext; [|done]. intros reciter.
    rewrite <- list_fmap_compose, fmap_of_bind.
    apply list_bind_ext; [|done]. intros surah_num.
    rewrite fmap_of_bind. by apply list_bind_ext.
  - rewrite catalog_length. change (py_sum SURAH_AYAH_COUNTS) with 6236. lia.
Qed.

(** ** Destination paths of the catalog *)

Lemma fmap_eq_pointwise {A B} (f g : A → B) (l : list A) :
  f <$> l = g <$> l → ∀ x, x ∈ l → f x = g x.
Proof.
  induction l as [|y l IH]; intros Heq x Hx; [by apply elem_of_nil in Hx|].
  injection Heq as Hy Hl. apply elem_of_cons in Hx as [->|Hx]; auto.
Qed.

Lemma NoDup_fmap_inj_on {A B} (f : A → B) (l : list A) :
  NoDup (f <$> l) → ∀ x y, x ∈ l → y ∈ l → f x = f y → x = y.
Proof.
  induction l as [|z l IH]; intros Hnd x y Hx Hy Hxy; [by apply elem_of_nil in Hx|].
  csimpl in Hnd. apply NoDup_cons in Hnd as [Hz Hnd].
  apply elem_of_cons in Hx as [->|Hx]; apply elem_of_cons in Hy as [->|Hy]; auto.
  - exfalso. apply Hz. rewrite Hxy. by apply list_elem_of_fmap_2.
  - exfalso. apply Hz. rewrite <- Hxy. by apply list_elem_of_fmap_2.
Qed.

(** Every file name of the catalog is a single relative path component
    from which the surah and the ayah can be read back. *)
Lemma filename_parse sa :
  sa ∈ ayah_index →
  pathlib.parse_root (task_filename sa.1 sa.2) = EmptyString ∧
  pathlib.parse_components (task_filename sa.1 sa.2) = [task_filename sa.1 sa.2] ∧
  decode_filename (task_filename sa.1 sa.2) = sa.
Proof.
  intros Hsa.
  assert (H : (λ sa, (pathlib.parse_root (task_filename sa.1 sa.2),
                      pathlib.parse_components (task_filename sa.1 sa.2),
                      decode_filename (task_filename sa.1 sa.2))) <$> ayah_index
              = (λ sa, (EmptyString, [task_filename sa.1 sa.2], sa)) <$> ayah_index).
  { vm_compute. reflexivity. }
  apply (fmap_eq_pointwise _ _ _ H) in Hsa.
  apply pair_equal_spec in Hsa as [Hsa H3].
  apply pair_equal_spec in Hsa as [H1 H2].
  exact (conj H1 (conj H2 H3)).
Qed.

Lemma RECITERS_relative reciter :
  reciter ∈ RECITERS → pathlib.parse_root (folder reciter) = EmptyString.
Proof.
  intros Hr.
  assert (H : (λ r, pathlib.parse_root (folder r)) <$> RECITERS
              = (λ _, EmptyString) <$> RECITERS) by (vm_compute; reflexivity).
  exact (fmap_eq_pointwise _ _ _ H _ Hr).
Qed.

Lemma RECITERS_folders_distinct :
  NoDup ((λ r, pathlib.parse_components (folder r)) <$> RECITERS).
Proof. apply (bool_decide_unpack _). vm_compute. exact I. Qed.

Lemma make_task_output_path output_dir reciter sa :
  reciter ∈ RECITERS → sa ∈ ayah_index →
  output_path (make_task output_dir reciter sa.1 sa.2)
  = pathlib.mkPath (pathlib.root output_dir)
      ((pathlib.parts output_dir ++ pathlib.parse_components (folder reciter))
         ++ [task_filename sa.1 sa.2]).
Proof.
  intros Hr Hsa. destruct (filename_parse sa Hsa) as (Hroot & Hcomp & _).
  unfold make_task. simpl. unfold pathlib.joinpath.
  rewrite (RECITERS_relative _ Hr), Hroot, Hcomp. simpl. done.
Qed.

Lemma ayah_index_NoDup : NoDup ayah_index.
Proof.
  unfold ayah_index. apply NoDup_bind; [| |apply NoDup_seqZ].
  - intros s1 s2 sa _ _ H1 H2.
    apply list_elem_of_bind in H1 as (a1 & H1 & _).
    apply list_elem_of_bind in H2 as (a2 & H2 & _).
    apply list_elem_of_singleton in H1, H2. congruence.
  - intros s _. apply NoDup_bind; [| |apply NoDup_seqZ].
    + intros a1 a2 sa _ _ H1 H2.
      apply list_elem_of_singleton in H1, H2. congruence.
    + intros a _. apply NoDup_singleton.
Qed.

Lemma catalog_paths_NoDup reciters output_dir :
  NoDup reciters → (∀ r, r ∈ reciters → r ∈ RECITERS) →
  NoDup (output_path <$> catalog reciters output_dir).
Proof.
  intros Hnd Hsub. unfold catalog. rewrite fmap_of_bind.
  apply NoDup_bind; [| |done].
  - intros r1 r2 p Hr1 Hr2 H1 H2.
    apply list_elem_of_fmap in H1 as (t1 & -> & H1), H2 as (t2 & Hp & H2).
    apply list_elem_of_fmap in H1 as (sa1 & -> & H1), H2 as (sa2 & -> & H2).
    rewrite !make_task_output_path in Hp by auto.
    injection Hp as Hp. apply app_inj_tail in Hp as [Hp _].
    apply app_inv_head in Hp.
    by apply (NoDup_fmap_inj_on _ _ RECITERS_folders_distinct); auto.
  - intros r Hr. rewrite <- list_fmap_compose.
    apply NoDup_fmap_2_strong; [|apply ayah_index_NoDup].
    intros sa1 sa2 H1 H2 Hp. unfold compose in Hp.
    rewrite !make_task_output_path in Hp by auto.
    injection Hp as Hp. apply app_inj_tail in Hp as [_ Hp].
    destruct (filename_parse _ H1) as (_ & _ & <-).
    destruct (filename_parse _ H2) as (_ & _ & <-). by rewrite Hp.
Qed.

Lemma RECITERS_NoDup : NoDup RECITERS.
Proof. exact (NoDup_fmap_1 _ _ RECITERS_folders_distinct). Qed.

(** C7. For the whole reciter table and for every selection that
    [--reciters] makes from it, [generate_download_tasks] returns a list of
    tasks whose destination paths are pairwise distinct. *)
Theorem catalog_destinations_distinct (reciter_folders : option (list string))
    (output_dir : Path) :
  ∃ tasks,
    generate_download_tasks (select_reciters reciter_folders) output_dir = py.Ok tasks ∧
    NoDup (output_path <$> tasks).
Proof.
  eexists. split; [apply generate_download_tasks_catalog|].
  apply catalog_paths_NoDup.
  - destruct reciter_folders as [names|]; simpl;
      [apply NoDup_filter|]; apply RECITERS_NoDup.
  - destruct reciter_folders as [names|]; simpl; [|done].
    intros r Hr. by apply list_elem_of_filter in Hr as [_ Hr].
Qed.

(** ** Workers that are not interleaved *)

(** Four steps of a fresh worker with nothing in between are one call of
    [download_worker]. *)
Lemma worker_run_download_worker force task session stats (fs : FileSystem) :
  worker_run force (mkWorker task session Start) stats fs
  = let '(r, stats', fs', _) := download_worker task session stats force fs in
    (mkWorker task session (Done r), stats', fs').
Proof.
  unfold worker_run, download_worker, worker_step at 1. simpl.
  destruct (download_file _ _ _ _ _ _) as [[[v|e] fs'] ev]; [|done].
  destruct v as [[[] []] error]; done.
Qed.

Lemma worker_run_done force w stats (fs : FileSystem) r :
  w_pc w = Done r → worker_run force w stats fs = (w, stats, fs).
Proof.
  intros Hpc. unfold worker_run.
  assert (Hstep : worker_step force w stats fs = (w, stats, fs)).
  { unfold worker_step. by rewrite Hpc. }
  by rewrite !Hstep.
Qed.

Lemma pool_step_lookup force i p w :
  p_workers p !! i = Some w →
  pool_step force i p
  = mkPool (worker_step force w (p_stats p) (p_fs p)).1.2
           (worker_step force w (p_stats p) (p_fs p)).2
           (<[i := (worker_step force w (p_stats p) (p_fs p)).1.1]> (p_workers p)).
Proof.
  intros Hw. unfold pool_step. rewrite Hw.
  by destruct (worker_step _ _ _ _) as [[??]?].
Qed.

Lemma pool_step_insert force i ws stats (fs : FileSystem) w :
  (i < length ws)%nat →
  pool_step force i (mkPool stats fs (<[i := w]> ws))
  = let '(w', stats', fs') := worker_step force w stats fs in
    mkPool stats' fs' (<[i := w']> ws).
Proof.
  intros Hi. unfold pool_step. simpl. rewrite list_lookup_insert_eq by done.
  destruct (worker_step _ _ _ _) as [[??]?]. by rewrite list_insert_insert_eq.
Qed.

Lemma pool_step_four force i p :
  pool_step force i (pool_step force i (pool_step force i (pool_step force i p)))
  = pool_run force i p.
Proof.
  unfold pool_run. destruct (p_workers p !! i) as [w|] eqn:Hw.
  2:{ unfold pool_step. by rewrite !Hw. }
  assert (Hi : (i < length (p_workers p))%nat) by (by eapply lookup_lt_Some).
  unfold worker_run.
  rewrite (pool_step_lookup force i p w Hw).
  destruct (worker_step force w _ _) as [[w1 s1] f1]. simpl.
  rewrite pool_step_insert by done.
  destruct (worker_step force w1 _ _) as [[w2 s2] f2].
  rewrite pool_step_insert by done.
  destruct (worker_step force w2 _ _) as [[w3 s3] f3].
  rewrite pool_step_insert by done.
  by destruct (worker_step force w3 _ _) as [[w4 s4] f4].
Qed.

Lemma run_schedule_atomic force order : ∀ p,
  run_schedule force (atomic_schedule order) p
  = foldl (λ p i, pool_run force i p) p order.
Proof.
  unfold run_schedule, atomic_schedule.
  induction order as [|i order IH]; intros p; [done|].
  csimpl. rewrite pool_step_four. apply IH.
Qed.

Lemma returned_count_insert ws i w w' :
  ws !! i = Some w →
  (returned_count (<[i := w']> ws) + length (option_list (returned_value w))
   = returned_count ws + length (option_list (returned_value w')))%nat.
Proof.
  intros Hw. unfold returned_count.
  rewrite insert_take_drop by (by eapply lookup_lt_Some).
  rewrite <- (take_drop_middle ws i w Hw) at 3.
  rewrite !omap_app, !length_app. csimpl.
  destruct (returned_value w), (returned_value w'); simpl; lia.
Qed.

Lemma pool_run_consistent force i p :
  pool_consistent p → pool_consistent (pool_run force i p).
Proof.
  intros (Hq & Hsum & Hfail). unfold pool_run.
  destruct (p_workers p !! i) as [w|] eqn:Hw; [|done].
  pose proof (Forall_lookup_1 _ _ _ _ Hq Hw) as [Hstart|Hdone].
  - destruct w as [task session pc0]. simpl in Hstart. subst pc0.
    rewrite worker_run_download_worker. unfold download_worker.
    destruct (download_file _ _ _ _ _ _) as [[[v|e] fs'] ev].
    + pose proof (returned_count_insert (p_workers p) i _
                    (mkWorker task session
                       (Done (py.Ok (url task, v.1.1, v.1.2, v.2)))) Hw) as Hc.
      destruct v as [[success skipped'] error]. simpl in Hc.
      split; [|split]; simpl.
      * apply Forall_insert; [done|]. by right.
      * destruct success, skipped'; simpl; lia.
      * destruct success, skipped'; simpl; rewrite ?length_app; simpl; lia.
    + pose proof (returned_count_insert (p_workers p) i _
                    (mkWorker task session (Done (py.Raise e))) Hw) as Hraise.
      split; [|split]; simpl; [|simpl in Hraise; lia|done].
      apply Forall_insert; [done|]. by right.
  - unfold is_done in Hdone.
    destruct (w_pc w) as [| | | |r] eqn:Hpc; try done.
    rewrite (worker_run_done _ _ _ _ r) by done.
    rewrite list_insert_id by done. by destruct p.
Qed.

Lemma pool_run_done force i p :
  length (p_workers (pool_run force i p)) = length (p_workers p) ∧
  (∀ j w, p_workers p !! j = Some w → (j = i ∧ w_pc w = Start) ∨ is_done w = true →
          ∃ w', p_workers (pool_run force i p) !! j = Some w' ∧ is_done w' = true).
Proof.
  unfold pool_run. destruct (p_workers p !! i) as [w|] eqn:Hw.
  2:{ split; [done|]. intros j w' Hj [[-> _]|Hd]; [congruence|eauto]. }
  destruct (worker_run force w _ _) as [[w1 s1] f1] eqn:Hrun. simpl.
  split; [by rewrite length_insert|].
  intros j wj Hj Hcase. destruct (decide (j = i)) as [->|Hne].
  - exists w1. split; [apply list_lookup_insert_eq; by eapply lookup_lt_Some|].
    assert (wj = w) as -> by congruence.
    destruct Hcase as [[_ Hstart]|Hd].
    + destruct w as [task session pc0]. simpl in Hstart. subst pc0.
      rewrite worker_run_download_worker in Hrun.
      destruct (download_worker _ _ _ _ _) as [[[r ?] ?] ?].
      by injection Hrun as <- _ _.
    + unfold is_done in Hd.
      destruct (w_pc w) as [| | | |r] eqn:Hpc; try done.
      rewrite (worker_run_done _ _ _ _ r) in Hrun by done.
      injection Hrun as <- _ _. unfold is_done. by rewrite Hpc.
  - exists wj. rewrite list_lookup_insert_ne by done.
    destruct Hcase as [[? _]|Hd]; done.
Qed.

Lemma pool_runs_consistent force order : ∀ p,
  pool_consistent p → pool_consistent (foldl (λ p i, pool_run force i p) p order).
Proof.
  induction order as [|i order IH]; intros p Hp; [done|].
  simpl. by apply IH, pool_run_consistent.
Qed.

Lemma pool_runs_length force order : ∀ p,
  length (p_workers (foldl (λ p i, pool_run force i p) p order)) = length (p_workers p).
Proof.
  induction order as [|i order IH]; intros p; [done|].
  simpl. rewrite IH. apply pool_run_done.
Qed.

Lemma pool_runs_stay_done force order : ∀ p j w,
  p_workers p !! j = Some w → is_done w = true →
  ∃ w', p_workers (foldl (λ p i, pool_run force i p) p order) !! j = Some w' ∧
        is_done w' = true.
Proof.
  induction order as [|i order IH]; intros p j w Hj Hd; [by exists w|].
  simpl. destruct (pool_run_done force i p) as [_ Hstep].
  destruct (Hstep j w Hj (or_intror Hd)) as (w1 & Hj1 & Hd1). eauto.
Qed.

Lemma pool_runs_all_done force order : ∀ p j,
  pool_consistent p → j ∈ order → (j < length (p_workers p))%nat →
  ∃ w', p_workers (foldl (λ p i, pool_run force i p) p order) !! j = Some w' ∧
        is_done w' = true.
Proof.
  induction order as [|i order IH]; intros p j Hp Hin Hlt;
    [by apply elem_of_nil in Hin|].
  simpl. destruct (pool_run_done force i p) as [Hlen Hstep].
  destruct (decide (j = i)) as [->|Hne].
  - destruct (lookup_lt_is_Some_2 _ _ Hlt) as [w Hw].
    destruct Hp as (Hq & _).
    pose proof (Forall_lookup_1 _ _ _ _ Hq Hw) as Hcase.
    destruct (Hstep i w Hw) as (w1 & Hw1 & Hd1).
    { destruct Hcase; [left|right]; done. }
    by eapply pool_runs_stay_done.
  - apply elem_of_cons in Hin as [?|Hin]; [done|].
    apply IH; [by apply pool_run_consistent|done|by rewrite Hlen].
Qed.

Lemma init_pool_consistent (fs : FileSystem) jobs :
  pool_consistent (init_pool DownloadStats_init fs jobs).
Proof.
  unfold pool_consistent, init_pool, returned_count. simpl.
  split; [|split; [|done]].
  - apply Forall_fmap, Forall_forall. intros j _. by left.
  - induction jobs as [|j jobs IH]; [done|]. csimpl. exact IH.
Qed.

(** Serial runs: when each worker runs from its call of [download_file]
    to its return in one piece, then in whatever order the workers run,
    once each of them has run all are finished and the counters account for
    every worker whose fetch returned a value. *)
Theorem pool_counts_without_interleaving force (fs : FileSystem)
    (jobs : list (Task * Session)) (order : list nat) :
  (∀ i, (i < length jobs)%nat → i ∈ order) →
  let p := run_schedule force (atomic_schedule order)
             (init_pool DownloadStats_init fs jobs) in
  Forall (λ w, is_done w = true) (p_workers p) ∧
  downloaded (p_stats p) + skipped (p_stats p) + failed (p_stats p)
  = Z.of_nat (returned_count (p_workers p)) ∧
  failed (p_stats p) = Z.of_nat (length (failed_files (p_stats p))) ∧
  (Forall (λ w, is_Some (returned_value w)) (p_workers p) →
   downloaded (p_stats p) + skipped (p_stats p) + failed (p_stats p)
   = Z.of_nat (length jobs)).
Proof.
  intros Hall p. subst p. rewrite run_schedule_atomic.
  set (p0 := init_pool DownloadStats_init fs jobs).
  pose proof (init_pool_consistent fs jobs) as H0. fold p0 in H0.
  pose proof (pool_runs_consistent force order p0 H0) as (_ & Hsum & Hfail).
  pose proof (pool_runs_length force order p0) as Hlen.
  assert (Hlen0 : length (p_workers p0) = length jobs).
  { unfold p0, init_pool. simpl. by rewrite length_fmap. }
  set (p := foldl _ p0 order) in *.
  split; [|split; [done|split; [done|]]].
  - apply Forall_lookup_2. intros j w Hj.
    assert (Hlt : (j < length jobs)%nat).
    { rewrite <- Hlen0, <- Hlen. by eapply lookup_lt_Some. }
    destruct (pool_runs_all_done force order p0 j H0 (Hall j Hlt)) as (w' & Hw' & Hd);
      [by rewrite Hlen0|].
    fold p in Hw'. congruence.
  - intros Hret. rewrite Hsum. f_equal. unfold returned_count.
    rewrite <- Hlen0, <- Hlen. clear -Hret.
    induction Hret as [|w ws [r Hr] _ IH]; [done|].
    csimpl. rewrite Hr. simpl. by rewrite IH.
Qed.

(** ** Updates that do not race *)

Lemma count_where_insert f ws i w w' :
  ws !! i = Some w →
  (count_where f (<[i := w']> ws) + (if f w then 1 else 0)
   = count_where f ws + (if f w' then 1 else 0))%nat.
Proof.
  intros Hw. unfold count_where.
  rewrite insert_take_drop by (by eapply lookup_lt_Some).
  rewrite <- (take_drop_middle ws i w Hw) at 3.
  rewrite !List.filter_app, !length_app. simpl.
  destruct (f w), (f w'); simpl; lia.
Qed.

Lemma count_where_zero f ws :
  count_where f ws = 0%nat → ∀ w, w ∈ ws → f w = false.
Proof.
  unfold count_where. induction ws as [|x ws IH]; intros Hc w Hin;
    [by apply elem_of_nil in Hin|].
  simpl in Hc. destruct (f x) eqn:Hx; [done|].
  apply elem_of_cons in Hin as [->|Hin]; auto.
Qed.

Lemma others_not_loading c ws i w w' :
  ws !! i = Some w → loading c w = true → loading c w' = false →
  (count_where (loading c) ws ≤ 1)%nat →
  ∀ j x, <[i := w']> ws !! j = Some x → loading c x = false.
Proof.
  intros Hw Hl Hl' Hone j x Hj.
  pose proof (count_where_insert (loading c) ws i w w' Hw) as Hc.
  rewrite Hl, Hl' in Hc.
  apply (count_where_zero (loading c) (<[i := w']> ws)); [lia|].
  by eapply list_elem_of_lookup_2.
Qed.

Lemma loading_Loaded c task session v r :
  loading c (mkWorker task session (Loaded v r))
  = bool_decide (counter_of v.1.1 v.1.2 = c).
Proof. reflexivity. Qed.

Lemma stored_Stored c task session v :
  stored c (mkWorker task session (Stored v)) = bool_decide (c = CFailed).
Proof. reflexivity. Qed.

Lemma stored_Done c task session u success skipped' error :
  stored c (mkWorker task session (Done (py.Ok (u, success, skipped', error))))
  = bool_decide (counter_of success skipped' = c).
Proof. reflexivity. Qed.

Local Ltac count_step Hcnt f H :=
  match goal with
  | |- context [<[_ := ?w']> _] =>
      pose proof (Hcnt f w') as H; simpl in H;
      rewrite ?loading_Loaded, ?stored_Stored, ?stored_Done in H; simpl in H
  end.

Lemma pool_step_counters force i p :
  counters_inv p → reads_free i p = true → counters_inv (pool_step force i p).
Proof.
  intros (Hval & Hone & Hws & Hrec) Hfree. unfold pool_step, reads_free in *.
  destruct (p_workers p !! i) as [w|] eqn:Hw; [|done].
  pose proof (λ f w', count_where_insert f (p_workers p) i w w' Hw) as Hcnt.
  pose proof (Forall_lookup_1 _ _ _ _ Hws Hw) as Hwi.
  destruct w as [task session pc0]. unfold worker_step, counters_inv.
  simpl in *. destruct pc0 as [|v|v r|v|res].
  - (* the fetch *)
    destruct (download_file _ _ _ _ _ _) as [[[v|e] fs'] ev]; simpl;
      (split; [intros c; count_step Hcnt (stored c) H1; rewrite (Hval c); f_equal; lia|]);
      (split; [intros c; count_step Hcnt (loading c) H1; specialize (Hone c); lia|]);
      (split; [by apply Forall_insert|]);
      count_step Hcnt recorded H1; lia.
  - (* the read of the counter *)
    destruct v as [[success skipped'] error]. simpl in *.
    apply bool_decide_eq_true in Hfree.
    split; [|split; [|split]].
    + intros c. count_step Hcnt (stored c) H1. rewrite (Hval c). f_equal. lia.
    + intros c. count_step Hcnt (loading c) H1. specialize (Hone c).
      case_bool_decide as Hc; [subst c|]; lia.
    + apply Forall_insert; [done|]. simpl. by destruct success, skipped'.
    + count_step Hcnt recorded H1. lia.
  - (* the store of the counter *)
    destruct v as [[success skipped'] error]. simpl in *.
    assert (Hothers : ∀ w' j x,
              loading (counter_of success skipped') w' = false →
              <[i := w']> (p_workers p) !! j = Some x →
              loading (counter_of success skipped') x = false).
    { intros w' j x Hl'. eapply others_not_loading; eauto.
      rewrite loading_Loaded. by apply bool_decide_eq_true. }
    assert (Hrest : ∀ w' (stats' : DownloadStats),
              loading (counter_of success skipped') w' = false →
              match w_pc w' with
              | Loaded _ _ => False
              | Stored v => v.1.1 = false
              | _ => True
              end →
              (∀ c, c ≠ counter_of success skipped' →
                    counter_value c stats' = counter_value c (p_stats p)) →
              Forall (λ w, match w_pc w with
                           | Loaded v r => r = counter_value (counter_of v.1.1 v.1.2) stats'
                           | Stored v => v.1.1 = false
                           | _ => True
                           end) (<[i := w']> (p_workers p))).
    { intros w' stats' Hl' Hnew Hsame. apply Forall_lookup_2. intros j x Hj.
      pose proof (Hothers w' j x Hl' Hj) as Hx.
      apply list_lookup_insert_Some in Hj as [(_ & <- & _)|(_ & Hj)].
      - by destruct (w_pc w').
      - pose proof (Forall_lookup_1 _ _ _ _ Hws Hj) as HP. simpl in HP.
        unfold loading in Hx.
        destruct (w_pc x) as [|v'|v' r'|v'|res']; try done.
        apply bool_decide_eq_false in Hx. by rewrite Hsame. }
    destruct success; [destruct skipped'|]; simpl in *;
      (split; [intros c; count_step Hcnt (stored c) H1; specialize (Hval c);
               destruct c; simpl in *; try case_bool_decide; try done; lia|]);
      (split; [intros c; count_step Hcnt (loading c) H1; specialize (Hone c); lia|]);
      (split; [apply Hrest; [done|done|by intros []]|]);
      count_step Hcnt recorded H1; lia.
  - (* the append of the record *)
    destruct v as [[success skipped'] error]. simpl in *. subst success.
    split; [|split; [|split]].
    + intros c. count_step Hcnt (stored c) H1. specialize (Hval c).
      destruct c; simpl in *; repeat case_bool_decide; try done; lia.
    + intros c. count_step Hcnt (loading c) H1. specialize (Hone c). lia.
    + apply Forall_insert; [|done]. exact Hws.
    + rewrite length_app. simpl. count_step Hcnt recorded H1. lia.
  - simpl. rewrite list_insert_id by done. by destruct p.
Qed.

Lemma run_schedule_counters force schedule : ∀ p,
  counters_inv p → race_free force schedule p = true →
  counters_inv (run_schedule force schedule p).
Proof.
  unfold run_schedule. induction schedule as [|i schedule IH]; intros p Hp Hfree;
    [done|].
  simpl in *. apply andb_true_iff in Hfree as [Hi Hrest].
  apply IH; [by apply pool_step_counters|done].
Qed.

Lemma pool_step_length force i p :
  length (p_workers (pool_step force i p)) = length (p_workers p).
Proof.
  unfold pool_step. destruct (p_workers p !! i) as [w|]; [|done].
  destruct (worker_step _ _ _ _) as [[w' stats'] fs']. simpl.
  by rewrite length_insert.
Qed.

Lemma run_schedule_length force schedule : ∀ p,
  length (p_workers (run_schedule force schedule p)) = length (p_workers p).
Proof.
  unfold run_schedule. induction schedule as [|i schedule IH]; intros p; [done|].
  simpl. rewrite IH. apply pool_step_length.
Qed.

Lemma init_pool_counters (fs : FileSystem) jobs :
  counters_inv (init_pool DownloadStats_init fs jobs).
Proof.
  assert (Hzero : ∀ f, (∀ t s, f (mkWorker t s Start) = false) →
            count_where f ((λ j : Task * Session, mkWorker j.1 j.2 Start) <$> jobs)
            = 0%nat).
  { intros f Hf. unfold count_where.
    induction jobs as [|j jobs IH]; [done|]. csimpl. by rewrite Hf. }
  unfold counters_inv, init_pool. simpl.
  split; [|split; [|split]].
  - intros c. rewrite Hzero by done. by destruct c.
  - intros c. rewrite Hzero by done. lia.
  - apply Forall_fmap, Forall_forall. by intros j _.
  - by rewrite Hzero.
Qed.

Lemma count_where_cons f w ws :
  count_where f (w :: ws) = ((if f w then 1 else 0) + count_where f ws)%nat.
Proof. unfold count_where. simpl. by destruct (f w). Qed.

Lemma done_counts ws :
  Forall (λ w, is_done w = true) ws →
  (count_where (stored CDownloaded) ws + count_where (stored CSkipped) ws
   + count_where (stored CFailed) ws = returned_count ws)%nat ∧
  count_where (stored CFailed) ws = count_where recorded ws.
Proof.
  induction 1 as [|w ws Hw _ [IH1 IH2]]; [done|].
  rewrite !count_where_cons.
  assert (Hhead : ((if stored CDownloaded w then 1 else 0)
                   + (if stored CSkipped w then 1 else 0)
                   + (if stored CFailed w then 1 else 0)
                   = length (option_list (returned_value w)))%nat ∧
                  stored CFailed w = recorded w).
  { unfold is_done, stored, recorded, returned_value in *.
    destruct (w_pc w) as [| | | |[[[[u success] skipped'] error]|e]]; try done.
    by destruct success, skipped'. }
  destruct Hhead as [Hh1 Hh2]. rewrite <- Hh2. split; [|lia].
  unfold returned_count in *. csimpl.
  destruct (returned_value w); simpl in *; lia.
Qed.

(** C6, as the code has it.  When no update of a counter overlaps another
    update of the same counter (no worker reads a counter that another
    worker has read and not yet stored), then however the workers are
    interleaved otherwise, once all of them have finished
    [downloaded + skipped + failed] is the number of workers whose fetch
    returned a value, which is the number of tasks when no fetch raised,
    and [failed] is the length of [failed_files]. *)
Theorem pool_counts_race_free force (fs : FileSystem)
    (jobs : list (Task * Session)) (schedule : list nat) :
  race_free force schedule (init_pool DownloadStats_init fs jobs) = true →
  let p := run_schedule force schedule (init_pool DownloadStats_init fs jobs) in
  Forall (λ w, is_done w = true) (p_workers p) →
  downloaded (p_stats p) + skipped (p_stats p) + failed (p_stats p)
  = Z.of_nat (returned_count (p_workers p)) ∧
  failed (p_stats p) = Z.of_nat (length (failed_files (p_stats p))) ∧
  (Forall (λ w, is_Some (returned_value w)) (p_workers p) →
   downloaded (p_stats p) + skipped (p_stats p) + failed (p_stats p)
   = Z.of_nat (length jobs)).
Proof.
  intros Hfree p Hdone.
  destruct (run_schedule_counters force schedule _ (init_pool_counters fs jobs) Hfree)
    as (Hval & _ & _ & Hrec).
  fold p in Hval, Hrec.
  destruct (done_counts _ Hdone) as [Hsum Hfailed].
  pose proof (Hval CDownloaded) as HD. pose proof (Hval CSkipped) as HS.
  pose proof (Hval CFailed) as HF. simpl in HD, HS, HF.
  assert (Hall : downloaded (p_stats p) + skipped (p_stats p) + failed (p_stats p)
                 = Z.of_nat (returned_count (p_workers p))) by lia.
  split; [done|]. split; [lia|].
  intros Hret. rewrite Hall. f_equal.
  pose proof (run_schedule_length force schedule
                (init_pool DownloadStats_init fs jobs)) as Hlen.
  fold p in Hlen. unfold init_pool in Hlen. simpl in Hlen.
  rewrite length_fmap in Hlen. rewrite <- Hlen. unfold returned_count.
  clear -Hret. induction Hret as [|w ws [r Hr] _ IH]; [done|].
  csimpl. rewrite Hr. simpl. by rewrite IH.
Qed.

(** ** The counter [failed] under any interleaving *)

Lemma Exists_insert_keep {A} (P : A → Prop) (l : list A) i x y :
  l !! i = Some x → (P x → P y) → Exists P l → Exists P (<[i := y]> l).
Proof.
  intros Hi Hxy Hex. apply Exists_exists in Hex as (z & Hz & HPz).
  apply list_elem_of_lookup in Hz as [j Hj]. apply Exists_exists.
  destruct (decide (j = i)) as [->|Hne].
  - exists y. split.
    + apply list_elem_of_lookup. exists i.
      apply list_lookup_insert_eq. by eapply lookup_lt_Some.
    + apply Hxy. congruence.
  - exists z. split; [|done]. apply list_elem_of_lookup. exists j.
    by rewrite list_lookup_insert_ne.
Qed.

Lemma Exists_insert_new {A} (P : A → Prop) (l : list A) i y :
  (i < length l)%nat → P y → Exists P (<[i := y]> l).
Proof.
  intros Hi Hy. apply Exists_exists. exists y. split; [|done].
  apply list_elem_of_lookup. exists i. by apply list_lookup_insert_eq.
Qed.

Lemma failed_counter_ok_mono f f' w :
  (1 ≤ f → 1 ≤ f') → failed_counter_ok f w → failed_counter_ok f' w.
Proof.
  unfold failed_counter_ok.
  destruct (w_pc w) as [|v|v r|v|[[[[u s] k] e]|e]]; try done; intuition.
Qed.

Lemma pool_step_failed_counter force i p :
  failed_counter_inv p → failed_counter_inv (pool_step force i p).
Proof.
  intros (Hpos & Hws & Hex). unfold pool_step, failed_counter_inv.
  destruct (p_workers p !! i) as [w|] eqn:Hw; [|done].
  assert (Hi : (i < length (p_workers p))%nat) by (by eapply lookup_lt_Some).
  pose proof (Forall_lookup_1 _ _ _ _ Hws Hw) as Hwi.
  destruct w as [task session pc0]. unfold worker_step, failed_counter_ok in *.
  simpl in *. destruct pc0 as [|v|v r|v|res].
  - destruct (download_file _ _ _ _ _ _) as [[[v|e] fs'] ev]; simpl;
      (split; [done|]); (split; [by apply Forall_insert|]);
      intros Hf; eapply Exists_insert_keep; eauto; done.
  - destruct v as [[success skipped'] error]. simpl.
    split; [done|]. split.
    + apply Forall_insert; [done|]. simpl. by intros ->.
    + intros Hf. eapply Exists_insert_keep; eauto.
  - destruct v as [[success skipped'] error]. simpl in *.
    destruct success; [destruct skipped'|]; simpl.
    + split; [done|]. split; [by apply Forall_insert|].
      intros Hf. eapply Exists_insert_keep; eauto.
    + split; [done|]. split; [by apply Forall_insert|].
      intros Hf. eapply Exists_insert_keep; eauto.
    + specialize (Hwi eq_refl). split; [lia|]. split.
      * apply Forall_insert; [|simpl; split; [done|lia]].
        eapply Forall_impl; [exact Hws|]. intros w'.
        apply failed_counter_ok_mono. lia.
      * intros _. by apply Exists_insert_new.
  - destruct Hwi as [Hv Hf1]. simpl. split; [done|]. split.
    + apply Forall_insert; [done|]. simpl. by intros _.
    + intros Hf. eapply Exists_insert_keep; eauto.
  - simpl. rewrite list_insert_id by done. by destruct p.
Qed.

Lemma run_schedule_failed_counter force schedule : ∀ p,
  failed_counter_inv p → failed_counter_inv (run_schedule force schedule p).
Proof.
  unfold run_schedule. induction schedule as [|i schedule IH]; intros p Hp; [done|].
  simpl. by apply IH, pool_step_failed_counter.
Qed.

Lemma init_pool_failed_counter stats (fs : FileSystem) jobs :
  failed stats = 0 → failed_counter_inv (init_pool stats fs jobs).
Proof.
  intros Hf. unfold failed_counter_inv, init_pool. simpl. rewrite Hf.
  split; [done|]. split; [|done].
  apply Forall_fmap, Forall_forall. by intros j _.
Qed.

(** ** The loop of [main] *)

Lemma loop_body_pool output_dir i current_time l :
  l_pool (loop_body output_dir i current_time l) = l_pool l.
Proof.
  unfold loop_body.
  by destruct (Qle_bool (inject_Z 2) _), (Qle_bool (inject_Z 30) _).
Qed.

Lemma run_actions_pool force output_dir actions : ∀ l,
  l_pool (foldl (run_action force output_dir) l actions)
  = run_schedule force (steps_of actions) (l_pool l).
Proof.
  induction actions as [|a actions IH]; intros l; [done|].
  simpl. rewrite IH. destruct a as [i|i t]; csimpl; [done|].
  by rewrite loop_body_pool.
Qed.

Lemma final_pool_failed_counter output_dir force tasks run :
  failed_counter_inv (final_pool output_dir force tasks run).
Proof.
  unfold final_pool, run_loop. rewrite run_actions_pool. simpl.
  do 2 apply run_schedule_failed_counter. by apply init_pool_failed_counter.
Qed.

Lemma run_actions_checkpoints force output_dir actions : ∀ l,
  length (checkpoint_writes (l_out (foldl (run_action force output_dir) l actions)))
  = (length (checkpoint_writes (l_out l))
     + length (checkpoint_times (last_save_time l) (completion_times actions)))%nat.
Proof.
  induction actions as [|a actions IH]; intros l; simpl; [lia|].
  rewrite IH. destruct a as [i|i t]; simpl; [done|].
  unfold loop_body, checkpoint_writes.
  destruct (w_pc <$> p_workers (l_pool l) !! i) as [[| | | |[r|e]]|];
    destruct (Qle_bool (inject_Z 2) _); destruct (Qle_bool (inject_Z 30) _);
    simpl; rewrite !omap_app, !length_app; simpl; lia.
Qed.

Lemma final_pool_length output_dir force tasks run :
  length (p_workers (final_pool output_dir force tasks run)) = length tasks.
Proof.
  unfold final_pool, run_loop. rewrite run_actions_pool, !run_schedule_length.
  unfold init_pool, jobs_of. simpl. by rewrite length_fmap, length_imap.
Qed.



(** * Further properties of the fetcher *)

Lemma try_block_frame url output_path temp_path retries attempt g (fs : FileSystem) p :
  p ≠ temp_path → p ≠ output_path →
  (try_block url output_path temp_path retries attempt g fs).1.2 !! p = fs !! p.
Proof.
  intros Hp1 Hp2. unfold try_block. destruct g as [e|response]; [done|].
  destruct (status_code response =? 200).
  2:{ destruct (_ =? 404); [done|]. by destruct (_ <? _). }
  destruct (write_chunks_spec temp_path (iter_content response)
              (<[temp_path := []]> fs) [])
    as (Hfs2 & _ & _); [by rewrite lookup_insert_eq|].
  destruct (write_chunks _ _ _) as [fs2 written]. simpl in Hfs2.
  rewrite insert_insert_eq in Hfs2.
  assert (Hother : fs2 !! p = fs !! p) by (by rewrite Hfs2, lookup_insert_ne).
  destruct (stream_error response); [done|].
  unfold rename. destruct (fs2 !! temp_path) as [content|]; [|done].
  destruct (_ <=? _); simpl.
  - by rewrite lookup_insert_ne, lookup_delete_ne.
  - by rewrite lookup_delete_ne.
Qed.

Lemma attempt_body_frame url output_path temp_path retries attempt g (fs : FileSystem) p :
  p ≠ temp_path → p ≠ output_path →
  (attempt_body url output_path temp_path retries attempt g fs).1.2 !! p = fs !! p.
Proof.
  intros Hp1 Hp2. unfold attempt_body.
  pose proof (try_block_frame url output_path temp_path retries attempt g fs p Hp1 Hp2)
    as Ht.
  destruct (try_block _ _ _ _ _ _ _) as [[c0 fs1] ev1]. simpl in Ht.
  destruct (except_clauses _ _ _) as [c1 ev2].
  destruct (finally_clause _ _) as [fs2 ev3] eqn:Hf.
  apply finally_clause_spec in Hf as (-> & _). simpl.
  by rewrite lookup_delete_ne.
Qed.

Lemma attempts_frame url output_path temp_path retries session todo p :
  p ≠ temp_path → p ≠ output_path →
  ∀ fs : FileSystem,
  (attempts url output_path temp_path retries session todo fs).1.2 !! p = fs !! p.
Proof.
  intros Hp1 Hp2. induction todo as [|attempt rest IH]; intros fs; [done|]. simpl.
  pose proof (attempt_body_frame url output_path temp_path retries attempt
                (session attempt) fs p Hp1 Hp2) as Ha.
  destruct (attempt_body _ _ _ _ _ _ _) as [[c fs1] ev1]. simpl in Ha.
  destruct c as [v| |e]; simpl; try done.
  specialize (IH fs1).
  destruct (attempts _ _ _ _ _ rest fs1) as [[r fs2] ev2]. simpl in *. congruence.
Qed.

Lemma fetch_frame url output_path session retries (fs : FileSystem) p :
  p ≠ output_path →
  (∀ temp_path, pathlib.with_suffix output_path ".tmp" = py.Ok temp_path → p ≠ temp_path) →
  (fetch url output_path session retries fs).1.2 !! p = fs !! p.
Proof.
  intros Hp1 Hp2. unfold fetch.
  destruct (pathlib.with_suffix output_path ".tmp") as [temp_path|e]; [|done].
  pose proof (attempts_frame url output_path temp_path retries session
                (py.range 0 retries) p (Hp2 _ eq_refl) Hp1 fs) as Ha.
  by destruct (attempts _ _ _ _ _ _ _) as [[r fs1] ev1].
Qed.

(** X2. [download_file] changes no file other than its destination and
    the temporary sibling of the destination. *)
Theorem download_file_frame url output_path session retries force (fs : FileSystem) p :
  p ≠ output_path →
  (∀ temp_path, pathlib.with_suffix output_path ".tmp" = py.Ok temp_path → p ≠ temp_path) →
  (download_file url output_path session retries force fs).1.2 !! p = fs !! p.
Proof.
  intros Hp1 Hp2. unfold download_file.
  destruct (if force then None else fs !! output_path) as [content|].
  - destruct (_ <=? _); [done|].
    pose proof (fetch_frame url output_path session retries (delete output_path fs)
                  p Hp1 Hp2) as Hf.
    destruct (fetch _ _ _ _ _) as [[r fs1] ev]. simpl in *.
    by rewrite Hf, lookup_delete_ne.
  - by apply fetch_frame.
Qed.

(** X1. A call that ends in a new download or in a skip leaves the files
    such that any later call for the same destination without [force] is a
    skip: it returns [(True, True, None)], changes nothing and makes no
    call, whatever the transport would do. *)
Theorem download_file_idempotent url output_path temp_path session session'
    retries retries' force (fs : FileSystem) :
  pathlib.with_suffix output_path ".tmp" = py.Ok temp_path →
  temp_path ≠ output_path →
  let '(r, fs1, ev1) := download_file url output_path session retries force fs in
  r = py.Ok (true, false, None) ∨ r = py.Ok (true, true, None) →
  download_file url output_path session' retries' false fs1
  = (py.Ok (true, true, None), fs1, []).
Proof.
  intros Hsuf Hne.
  assert (Hskip : ∀ (fs1 : FileSystem) content,
            fs1 !! output_path = Some content →
            MIN_VALID_FILE_SIZE ≤ st_size content →
            download_file url output_path session' retries' false fs1
            = (py.Ok (true, true, None), fs1, [])).
  { intros fs1 content Hl Hsz. unfold download_file. rewrite Hl.
    apply Z.leb_le in Hsz. by rewrite Hsz. }
  destruct (already_present force output_path fs) eqn:Hap.
  - unfold already_present in Hap. unfold download_file.
    destruct force; [done|]. simpl in Hap.
    destruct (fs !! output_path) as [content|] eqn:Hl; [|done]. rewrite Hap.
    intros _. apply (Hskip fs content Hl). by apply Z.leb_le.
  - destruct (download_file_not_present url output_path session retries force fs Hap)
      as (fs0 & ev0 & -> & _).
    pose proof (fetch_shape url output_path session retries fs0) as Hs.
    destruct (fetch _ _ _ _ _) as [[r fs1] ev] eqn:Hf. simpl in Hs.
    apply (fetch_spec _ _ _ _ _ _ _ _ _ Hsuf Hne) in Hf as (_ & _ & _ & Hr).
    intros [->| ->].
    + destruct Hr as [(_ & content & Hl & Hsz)|([e [=]] & _)]. by eapply Hskip.
    + by destruct (Hs _ eq_refl) as [?|[? ?]].
Qed.

Lemma attempt_body_success url output_path temp_path retries attempt g
    (fs : FileSystem) content :
  temp_path ≠ output_path →
  complete_body g = Some content →
  let '(c, fs', ev) := attempt_body url output_path temp_path retries attempt g fs in
  c = Return (true, false, None) ∧ fs' !! output_path = Some content ∧
  fs' !! temp_path = None ∧ network_trace ev = [EvGet url].
Proof.
  intros Hne Hg. unfold attempt_body, try_block, complete_body in *.
  destruct g as [e|response]; [done|].
  destruct (status_code response =? 200); [|done].
  destruct (write_chunks_spec temp_path (iter_content response)
              (<[temp_path := []]> fs) [])
    as (Hfs2 & _ & Hnet); [by rewrite lookup_insert_eq|].
  destruct (write_chunks _ _ _) as [fs2 written]. simpl in Hnet, Hfs2.
  destruct (stream_error response) as [e|]; [done|].
  rewrite Hfs2, lookup_insert_eq. simpl. unfold body_size in Hg.
  destruct (MIN_VALID_FILE_SIZE <=? _); [|done]. injection Hg as <-.
  unfold rename. rewrite lookup_insert_eq. simpl.
  destruct (finally_clause _ _) as [fs3 ev3] eqn:Hf.
  apply finally_clause_spec in Hf as (-> & _ & Hn3).
  split; [done|]. split; [|split].
  - by rewrite lookup_delete_ne, lookup_insert_eq.
  - by rewrite lookup_delete_eq.
  - unfold network_trace in *. simpl.
    rewrite !List.filter_app, Hnet, Hn3. done.
Qed.

(** X3. When the call is not a skip and the first response is a 200
    whose stream ends without an error with at least 1024 bytes, the call
    returns [(True, False, None)] after one GET and no sleep, the
    destination holds exactly the concatenation of the streamed chunks and
    the temporary file is gone. *)
Theorem download_file_success url output_path temp_path session retries force
    (fs : FileSystem) content :
  pathlib.with_suffix output_path ".tmp" = py.Ok temp_path →
  temp_path ≠ output_path →
  already_present force output_path fs = false →
  0 < retries →
  complete_body (session 0) = Some content →
  let '(r, fs', ev) := download_file url output_path session retries force fs in
  r = py.Ok (true, false, None) ∧
  fs' !! output_path = Some content ∧
  fs' !! temp_path = None ∧
  network_trace ev = [EvGet url].
Proof.
  intros Hsuf Hne Hap Hpos Hbody.
  destruct (download_file_not_present url output_path session retries force fs Hap)
    as (fs0 & ev0 & -> & Hn0 & _).
  unfold fetch. rewrite Hsuf, range_0_pos by done. simpl.
  pose proof (attempt_body_success url output_path temp_path retries 0 _ fs0 _
                Hne Hbody) as A0.
  destruct (attempt_body _ _ _ _ 0 _ _) as [[c0 fs1] ev1].
  destruct A0 as (-> & Hout & Htmp & T0). simpl.
  repeat split; try done.
  change (EvMkdir ?p :: ?l) with ([EvMkdir p] ++ l).
  by rewrite !network_trace_app, Hn0, T0.
Qed.

Lemma try_block_network url output_path temp_path retries attempt g (fs : FileSystem) :
  let '(c, fs', ev) := try_block url output_path temp_path retries attempt g fs in
  (c = Continue ∧ attempt < retries - 1 ∧
   network_trace ev = [EvGet url; EvSleep (1 * (attempt + 1))])
  ∨ (c ≠ Continue ∧ network_trace ev = [EvGet url]).
Proof.
  unfold try_block. destruct g as [e|response]; [by right|].
  destruct (status_code response =? 200).
  - destruct (write_chunks_spec temp_path (iter_content response)
                (<[temp_path := []]> fs) [])
      as (_ & _ & Hnet); [by rewrite lookup_insert_eq|].
    destruct (write_chunks _ _ _) as [fs2 written]. simpl in Hnet.
    assert (Hn : ∀ tail, network_trace tail = [] →
              network_trace (EvGet url :: EvOpen temp_path :: written ++ tail)
              = [EvGet url]).
    { intros tail Ht. unfold network_trace in *. simpl.
      by rewrite List.filter_app, Hnet, Ht. }
    pose proof (Hn [] eq_refl) as Hn0. rewrite app_nil_r in Hn0.
    destruct (stream_error response); [by right|].
    destruct (fs2 !! temp_path); [|by right].
    destruct (_ <=? _); right; (split; [done|]); by apply Hn.
  - destruct (_ =? 404); [by right|].
    destruct (attempt <? retries - 1) eqn:Hlt; [|by right].
    left. apply Z.ltb_lt in Hlt. done.
Qed.

Lemma attempt_body_network url output_path temp_path retries attempt g (fs : FileSystem) :
  let '(c, fs', ev) := attempt_body url output_path temp_path retries attempt g fs in
  (c = Continue ∧ attempt < retries - 1 ∧
   ∃ d, (d = 1 * (attempt + 1) ∨ d = 2 * (attempt + 1)) ∧
        network_trace ev = [EvGet url; EvSleep d])
  ∨ (c ≠ Continue ∧ network_trace ev = [EvGet url]).
Proof.
  unfold attempt_body.
  pose proof (try_block_network url output_path temp_path retries attempt g fs) as Ht.
  destruct (try_block _ _ _ _ _ _ _) as [[c0 fs1] ev1].
  destruct (finally_clause temp_path fs1) as [fs2 ev3] eqn:Hf.
  apply finally_clause_spec in Hf as (_ & _ & Hn3).
  destruct Ht as [(-> & Hlt & Hn1)|(Hc0 & Hn1)].
  - simpl. left. split; [done|]. split; [done|]. eexists. split; [by left|].
    by rewrite !network_trace_app, Hn1, Hn3.
  - unfold except_clauses.
    destruct c0 as [v| |[| | |msg|msg]]; try done;
      try (right; split; [done|]; simpl; by rewrite !network_trace_app, Hn1, Hn3);
      destruct (attempt <? retries - 1) eqn:Hlt;
      try (right; split; [done|]; simpl; by rewrite !network_trace_app, Hn1, Hn3);
      apply Z.ltb_lt in Hlt; left; (split; [done|]); (split; [done|]);
      eexists; (split; [by right|]); by rewrite !network_trace_app, Hn1, Hn3.
Qed.

Lemma attempts_network url output_path temp_path retries session :
  ∀ (n : nat) (a : Z) (fs : FileSystem),
  a + Z.of_nat n = retries →
  let '(r, fs', ev) :=
    attempts url output_path temp_path retries session (seqZ a (Z.of_nat n)) fs in
  (n = 0%nat ∧ network_trace ev = []) ∨
  ∃ delays, network_trace ev = attempts_trace url delays ∧
            (length delays < n)%nat ∧
            ∀ (i : nat) d, delays !! i = Some d →
              d = 1 * (a + Z.of_nat i + 1) ∨ d = 2 * (a + Z.of_nat i + 1).
Proof.
  induction n as [|n IH]; intros a fs Hret; [by left|].
  rewrite seqZ_cons by lia. simpl.
  replace (Z.pred (Z.of_nat (S n))) with (Z.of_nat n) by lia.
  pose proof (attempt_body_network url output_path temp_path retries a (session a) fs)
    as Ha.
  destruct (attempt_body _ _ _ _ _ _ _) as [[c fs1] ev1].
  destruct Ha as [(-> & Hlt & d & Hd & Hn1)|(Hc & Hn1)].
  - specialize (IH (Z.succ a) fs1 ltac:(lia)).
    destruct (attempts _ _ _ _ _ _ fs1) as [[r fs2] ev2].
    right. destruct IH as [[-> _]|(delays & Hn2 & Hlen & Hds)]; [lia|].
    exists (d :: delays). split; [|split].
    + rewrite network_trace_app, Hn1, Hn2. done.
    + simpl. lia.
    + intros [|i] d' Hl; simpl in Hl.
      * injection Hl as <-. destruct Hd as [->| ->]; [left|right]; lia.
      * destruct (Hds i d' Hl) as [->| ->]; [left|right]; lia.
  - destruct c as [v| |e]; [|done|]; right; exists [];
      (split; [done|split; [simpl; lia|by intros i d' ?]]).
Qed.

(** X4. For every behaviour of the transport, a call that is not a skip
    makes at least one and at most [retries] GETs; it sleeps only between
    two GETs, never after the last one, and the sleep after attempt number
    [i] (counted from 1) lasts [i] or [2 * i] seconds. *)
Theorem download_file_backoff url output_path session retries force (fs : FileSystem) :
  pathlib.name output_path ≠ EmptyString →
  already_present force output_path fs = false →
  0 < retries →
  let '(r, fs', ev) := download_file url output_path session retries force fs in
  ∃ delays,
    network_trace ev = attempts_trace url delays ∧
    Z.of_nat (length delays) < retries ∧
    ∀ (i : nat) d, delays !! i = Some d →
      d = Z.of_nat i + 1 ∨ d = 2 * (Z.of_nat i + 1).
Proof.
  intros Hname Hap Hpos.
  destruct (with_suffix_tmp_ok _ Hname) as [temp_path Hsuf].
  destruct (download_file_not_present url output_path session retries force fs Hap)
    as (fs0 & ev0 & -> & Hn0 & _).
  unfold fetch. rewrite Hsuf. unfold py.range.
  pose proof (attempts_network url output_path temp_path retries session
                (Z.to_nat retries) 0 fs0 ltac:(lia)) as Ha.
  replace (Z.of_nat (Z.to_nat retries)) with (retries - 0) in Ha by lia.
  destruct (attempts _ _ _ _ _ _ _) as [[r fs1] ev].
  destruct Ha as [[Hz _]|(delays & Hn & Hlen & Hds)]; [lia|].
  exists delays. split; [|split; [lia|]].
  - change (EvMkdir ?p :: ?l) with ([EvMkdir p] ++ l).
    by rewrite !network_trace_app, Hn0, Hn.
  - intros i d Hl. destruct (Hds i d Hl) as [->| ->]; [left|right]; lia.
Qed.

(** X5. With [retries] zero or negative a call that is not a skip makes
    no network call at all and returns the failure "Max retries exceeded". *)
Theorem download_file_no_attempts url output_path session retries force
    (fs : FileSystem) :
  pathlib.name output_path ≠ EmptyString →
  already_present force output_path fs = false →
  retries ≤ 0 →
  let '(r, fs', ev) := download_file url output_path session retries force fs in
  r = py.Ok (false, false, Some "Max retries exceeded") ∧ network_trace ev = [].
Proof.
  intros Hname Hap Hneg.
  destruct (with_suffix_tmp_ok _ Hname) as [temp_path Hsuf].
  destruct (download_file_not_present url output_path session retries force fs Hap)
    as (fs0 & ev0 & -> & Hn0 & _).
  unfold fetch. rewrite Hsuf. unfold py.range. rewrite seqZ_nil by lia. simpl.
  split; [done|].
  change (ev0 ++ [EvMkdir ?p]) with (ev0 ++ [EvMkdir p] ++ []).
  by rewrite !network_trace_app, Hn0.
Qed.

Lemma attempt_body_unexpected url output_path temp_path retries attempt g
    (fs : FileSystem) status :
  unexpected_status g = Some status →
  let '(c, fs', ev) := attempt_body url output_path temp_path retries attempt g fs in
  c = (if attempt <? retries - 1 then Continue
       else Return (false, false, Some ("HTTP " +:+ py.str status))) ∧
  network_trace ev
  = EvGet url :: (if attempt <? retries - 1 then [EvSleep (1 * (attempt + 1))] else []).
Proof.
  intros Hg. unfold attempt_body, try_block, unexpected_status in *.
  destruct g as [e|response]; [done|].
  destruct (status_code response =? 200); [done|].
  destruct (status_code response =? 404); [done|]. simpl in Hg. injection Hg as <-.
  destruct (attempt <? retries - 1); simpl;
    destruct (finally_clause temp_path fs) as [fs2 ev3] eqn:Hf;
    apply finally_clause_spec in Hf as (_ & _ & Hn3);
    (split; [done|]).
  - unfold network_trace in *. simpl. by rewrite Hn3.
  - unfold network_trace in *. simpl. by rewrite Hn3.
Qed.

(** X6. When the call is not a skip and each of the three attempts gets a
    status other than 200 and 404, [download_file] issues three GETs with
    sleeps of 1 and 2 seconds between them and fails with "HTTP " followed
    by the status of the third response. *)
Theorem download_file_status_retry url output_path session force (fs : FileSystem) :
  pathlib.name output_path ≠ EmptyString →
  already_present force output_path fs = false →
  (∀ attempt, 0 ≤ attempt < 3 → is_Some (unexpected_status (session attempt))) →
  let '(r, fs', ev) := download_file url output_path session 3 force fs in
  r = py.Ok (false, false,
             (λ status, "HTTP " +:+ py.str status) <$> unexpected_status (session 2)) ∧
  network_trace ev = [EvGet url; EvSleep 1; EvGet url; EvSleep 2; EvGet url].
Proof.
  intros Hname Hap Hsess.
  destruct (with_suffix_tmp_ok _ Hname) as [temp_path Hsuf].
  destruct (download_file_not_present url output_path session 3 force fs Hap)
    as (fs0 & ev0 & -> & Hn0 & _).
  unfold fetch. rewrite Hsuf, range_0_3. simpl.
  destruct (Hsess 0 ltac:(lia)) as [m0 H0].
  destruct (Hsess 1 ltac:(lia)) as [m1 H1].
  destruct (Hsess 2 ltac:(lia)) as [m2 H2].
  pose proof (attempt_body_unexpected url output_path temp_path 3 0 _ fs0 _ H0) as A0.
  destruct (attempt_body _ _ _ _ 0 _ _) as [[c0 fs1] ev1].
  destruct A0 as [-> T0]. simpl.
  pose proof (attempt_body_unexpected url output_path temp_path 3 1 _ fs1 _ H1) as A1.
  destruct (attempt_body _ _ _ _ 1 _ _) as [[c1 fs2] ev2].
  destruct A1 as [-> T1]. simpl.
  pose proof (attempt_body_unexpected url output_path temp_path 3 2 _ fs2 _ H2) as A2.
  destruct (attempt_body _ _ _ _ 2 _ _) as [[c2 fs3] ev3].
  destruct A2 as [-> T2]. simpl.
  split; [by rewrite H2|].
  change (EvMkdir ?p :: ?l) with ([EvMkdir p] ++ l).
  rewrite !network_trace_app, Hn0, T0, T1, T2. done.
Qed.

(** * Further properties of the worker and of the run *)

Lemma download_file_value_shape url output_path session retries force (fs : FileSystem) v :
  (download_file url output_path session retries force fs).1.1 = py.Ok v →
  outcome_shape v.
Proof.
  unfold download_file.
  destruct (if force then None else fs !! output_path) as [content|].
  - destruct (_ <=? _); [intros [= <-]; by left|].
    pose proof (fetch_shape url output_path session retries (delete output_path fs) v)
      as Hs.
    destruct (fetch _ _ _ _ _) as [[r fs1] ev]. simpl in *.
    intros Hr. destruct (Hs Hr) as [->|[e ->]]; unfold outcome_shape; eauto.
  - intros Hr. destruct (fetch_shape _ _ _ _ _ _ Hr) as [->|[e ->]];
      unfold outcome_shape; eauto.
Qed.


Lemma failed_files_ok_mono fl fl' w :
  (fl ≠ [] → fl' ≠ []) → failed_files_ok fl w → failed_files_ok fl' w.
Proof.
  unfold failed_files_ok.
  destruct (w_pc w) as [|v|v r|v|[[[[u s] k] e]|e]]; try done; intuition.
Qed.

Lemma pool_step_failed_files force i p :
  failed_files_inv p → failed_files_inv (pool_step force i p).
Proof.
  intros (Hws & Hex). unfold pool_step, failed_files_inv.
  destruct (p_workers p !! i) as [w|] eqn:Hw; [|done].
  assert (Hi : (i < length (p_workers p))%nat) by (by eapply lookup_lt_Some).
  pose proof (Forall_lookup_1 _ _ _ _ Hws Hw) as Hwi.
  destruct w as [task session pc0]. unfold worker_step, failed_files_ok in *.
  simpl in *. destruct pc0 as [|v|v r|v|res].
  - destruct (download_file _ _ _ _ _ _) as [[[v|e] fs'] ev]; simpl;
      (split; [by apply Forall_insert|]);
      intros Hf; eapply Exists_insert_keep; eauto; done.
  - destruct v as [[success skipped'] error]. simpl.
    split; [by apply Forall_insert|].
    intros Hf. eapply Exists_insert_keep; eauto.
  - destruct v as [[success skipped'] error]. simpl in *.
    destruct success; [destruct skipped'|]; simpl;
      (split; [by apply Forall_insert|]);
      intros Hf; eapply Exists_insert_keep; eauto.
  - simpl. split.
    + apply Forall_insert; [|simpl; intros _; by destruct (failed_files (p_stats p))].
      eapply Forall_impl; [exact Hws|]. intros w'.
      apply failed_files_ok_mono. intros _. by destruct (failed_files (p_stats p)).
    + intros _. apply Exists_insert_new; [done|]. unfold has_failed. simpl.
      by rewrite Hwi.
  - simpl. rewrite list_insert_id by done. by destruct p.
Qed.

Lemma run_schedule_failed_files force schedule : ∀ p,
  failed_files_inv p → failed_files_inv (run_schedule force schedule p).
Proof.
  unfold run_schedule. induction schedule as [|i schedule IH]; intros p Hp; [done|].
  simpl. by apply IH, pool_step_failed_files.
Qed.

Lemma final_pool_failed_files output_dir force tasks run :
  failed_files_inv (final_pool output_dir force tasks run).
Proof.
  unfold final_pool, run_loop. rewrite run_actions_pool. simpl.
  do 2 apply run_schedule_failed_files.
  unfold failed_files_inv, init_pool. simpl. split; [|done].
  apply Forall_fmap, Forall_forall. by intros j _.
Qed.

Lemma loop_writes_no_report force output_dir actions : ∀ l,
  report_written (l_out l) = false →
  report_written (l_out (foldl (run_action force output_dir) l actions)) = false.
Proof.
  induction actions as [|a actions IH]; intros l Hl; [done|].
  simpl. apply IH. destruct a as [i|i t]; [done|]. simpl.
  unfold loop_body, report_written in *.
  destruct (w_pc <$> p_workers (l_pool l) !! i) as [[| | | |[r|e]]|];
    destruct (Qle_bool (inject_Z 2) _); destruct (Qle_bool (inject_Z 30) _);
    simpl; rewrite !existsb_app, Hl; done.
Qed.

(** X8. Under any interleaving of the workers, once all of them have
    finished: the exit status is nonzero exactly when the failure report
    [failed_downloads.json] is written, and this is the case exactly when
    the fetch of some task came back with a failure. *)
Theorem failure_report_iff_status selected output_dir force tasks run :
  Forall (λ w, is_done w = true) (p_workers (final_pool output_dir force tasks run)) →
  let '(status, stats, out) := download_phase selected output_dir force tasks run in
  (status ≠ 0 ↔ report_written out = true) ∧
  (report_written out = true ↔
   Exists (λ w, has_failed w = true) (p_workers (final_pool output_dir force tasks run))).
Proof.
  intros Hdone. unfold download_phase.
  destruct (final_pool_failed_counter output_dir force tasks run) as (Hpos & Hc & Hcex).
  destruct (final_pool_failed_files output_dir force tasks run) as (Hf & Hfex).
  set (p := final_pool output_dir force tasks run) in *.
  assert (Hloop : report_written (l_out (run_loop output_dir force tasks run)) = false).
  { unfold run_loop. by apply loop_writes_no_report. }
  assert (Hrep : ∀ (b : bool),
            report_written
              (l_out (run_loop output_dir force tasks run) ++
               (if b then [PrintInterrupted] else [PrintProgress (p_stats p)]) ++
               [PrintSummary (p_stats p)] ++
               match failed_files (p_stats p) with
               | [] => []
               | _ :: _ => [SaveFailedReport (output_dir /: "failed_downloads.json")
                              (failed_files (p_stats p))]
               end ++ [SaveManifest (output_dir /: "manifest.json") selected (p_stats p)])
            = true ↔ failed_files (p_stats p) ≠ []).
  { intros b. unfold report_written in *. rewrite existsb_app, Hloop.
    destruct b, (failed_files (p_stats p)); simpl; split; done. }
  assert (Hall : Exists (λ w, has_failed w = true) (p_workers p) →
                 1 ≤ failed (p_stats p) ∧ failed_files (p_stats p) ≠ []).
  { intros Hex. apply Exists_exists in Hex as (w & Hin & Hw).
    rewrite Forall_forall in Hdone, Hc, Hf.
    specialize (Hdone w Hin). specialize (Hc w Hin). specialize (Hf w Hin).
    unfold has_failed, is_done, failed_counter_ok, failed_files_ok in *.
    destruct (w_pc w) as [|v|v r|v|[[[[u s] k] e]|e]]; try done.
    destruct s; [done|]. split; auto. }
  rewrite Hrep. split; [split|split].
  - intros Hs. apply Hall, Hcex. intros Hz. rewrite Hz in Hs. done.
  - intros Hne. destruct (Hall (Hfex Hne)) as [H1 _].
    destruct (failed (p_stats p) =? 0) eqn:Hz; [apply Z.eqb_eq in Hz; lia|done].
  - exact Hfex.
  - intros Hex. by apply Hall.
Qed.

(** * Further properties of [main] *)

(** X10. With [--reciters] the selection keeps the order of the reciter
    table and holds each entry at most once, whatever the order and the
    repetitions of the names given; it holds exactly the entries whose
    folder is among the names, so a name that is no folder of the table is
    ignored, and two lists with the same names select the same reciters. *)
Theorem select_reciters_filter (names : list string) :
  select_reciters (Some names) `sublist_of` RECITERS ∧
  NoDup (select_reciters (Some names)) ∧
  (∀ r, r ∈ select_reciters (Some names) ↔ r ∈ RECITERS ∧ folder r ∈ names) ∧
  (∀ names', (∀ x, x ∈ names ↔ x ∈ names') →
             select_reciters (Some names') = select_reciters (Some names)).
Proof.
  unfold select_reciters. split; [apply sublist_filter|].
  split; [apply NoDup_filter, RECITERS_NoDup|]. split.
  - intros r. rewrite list_elem_of_filter. tauto.
  - intros names' Hsame. apply list_filter_iff. intros r. by rewrite Hsame.
Qed.

Lemma filter_nil_iff {A} (P : A → Prop) `{∀ x, Decision (P x)} (l : list A) :
  filter P l = [] ↔ ∀ x, x ∈ l → ¬ P x.
Proof.
  split.
  - intros Hnil x Hx HP. by apply (filter_nil_not_elem_of P l x).
  - intros Hall. induction l as [|y l IH]; [done|].
    rewrite filter_cons_False by (apply Hall; by left).
    apply IH. intros x Hx. apply Hall. by right.
Qed.

Lemma main_cases args confirm run :
  main args confirm run =
  if list_reciters args then py.Ok (Returns 0 [])
  else match py.truthy (output_arg args) with
  | None => py.Ok ParserError
  | Some output' =>
      let output_dir := pathlib.of_string output' in
      let reciters := select_reciters (reciter_folders_of args) in
      if decide (is_Some (reciter_folders_of args) ∧ reciters = [])
      then py.Ok (Returns 1 [])
      else if dry_run args then py.Ok (Returns 0 [])
      else if negb (confirmed confirm) then py.Ok (Returns 0 [])
      else if workers args <=? 0 then py.Raise py.ValueError
      else py.Ok (Returns (download_phase reciters output_dir (force_arg args)
                             (catalog reciters output_dir) run).1.1
                          (download_phase reciters output_dir (force_arg args)
                             (catalog reciters output_dir) run).2)
  end.
Proof.
  unfold main. destruct (list_reciters args); [done|].
  destruct (py.truthy (output_arg args)) as [output'|]; [|done].
  cbv zeta. rewrite generate_download_tasks_catalog.
  set (reciters := select_reciters (reciter_folders_of args)).
  set (output_dir := pathlib.of_string output').
  assert (Hbody : ∀ tasks,
            (py.Ok tasks ≫= λ tasks : list Task,
               if dry_run args then mret (Returns 0 [])
               else if negb (confirmed confirm) then mret (Returns 0 [])
               else if workers args <=? 0 then py.Raise py.ValueError
               else let '(status, _, out) :=
                      download_phase reciters output_dir (force_arg args) tasks run in
                    mret (Returns status out))
            = if dry_run args then py.Ok (Returns 0 [])
              else if negb (confirmed confirm) then py.Ok (Returns 0 [])
              else if workers args <=? 0 then py.Raise py.ValueError
              else py.Ok (Returns (download_phase reciters output_dir (force_arg args)
                                     tasks run).1.1
                                  (download_phase reciters output_dir (force_arg args)
                                     tasks run).2)).
  { intros tasks. unfold mbind, result_bind, py.bind.
    destruct (dry_run args); [done|]. destruct (negb _); [done|].
    destruct (workers args <=? 0); [done|].
    by destruct (download_phase _ _ _ _ _) as [[??]?]. }
  destruct (reciter_folders_of args) as [names|]; destruct reciters as [|r0 rs] eqn:Hr;
    rewrite ?Hbody.
  - rewrite decide_True; [done|]. split; [by eexists|done].
  - rewrite decide_False; [done|]. by intros [_ ?].
  - rewrite decide_False; [done|]. by intros [[? ?] _].
  - rewrite decide_False; [done|]. by intros [[? ?] _].
Qed.

Lemma download_phase_out_nonempty selected output_dir force tasks run :
  (download_phase selected output_dir force tasks run).2 ≠ [].
Proof.
  unfold download_phase. simpl. intros Hnil.
  apply (f_equal length) in Hnil. rewrite !length_app in Hnil. simpl in Hnil. lia.
Qed.


(** * Further properties of the catalog *)

Lemma zfill_three_digits n :
  0 ≤ n ≤ 999 → three_digits (py.zfill (py.str n) 3) = Some n.
Proof.
  intros Hn.
  assert (H : (λ n, three_digits (py.zfill (py.str n) 3)) <$> seqZ 0 1000
              = Some <$> seqZ 0 1000) by (vm_compute; reflexivity).
  apply (fmap_eq_pointwise _ _ _ H). apply elem_of_seqZ. lia.
Qed.

(** X13. For surah and ayah numbers of at most three digits the file name
    has ten characters and determines both numbers: different pairs get
    different names. *)
Theorem task_filename_injective s a s' a' :
  0 ≤ s ≤ 999 → 0 ≤ a ≤ 999 → 0 ≤ s' ≤ 999 → 0 ≤ a' ≤ 999 →
  String.length (task_filename s a) = 10%nat ∧
  decode_filename (task_filename s a) = (s, a) ∧
  (task_filename s a = task_filename s' a' → s = s' ∧ a = a').
Proof.
  assert (Hdec : ∀ s a, 0 ≤ s ≤ 999 → 0 ≤ a ≤ 999 →
            String.length (task_filename s a) = 10%nat ∧
            decode_filename (task_filename s a) = (s, a)).
  { clear. intros s a Hs Ha. unfold task_filename.
    pose proof (zfill_three_digits s Hs) as H1.
    pose proof (zfill_three_digits a Ha) as H2.
    destruct (py.zfill (py.str s) 3) as [|c1 [|c2 [|c3 [|]]]]; try done.
    destruct (py.zfill (py.str a) 3) as [|d1 [|d2 [|d3 [|]]]]; try done.
    simpl in *. split; [done|]. congruence. }
  intros Hs Ha Hs' Ha'.
  destruct (Hdec s a Hs Ha) as [Hlen Hsa].
  destruct (Hdec s' a' Hs' Ha') as [_ Hsa'].
  split; [done|]. split; [done|].
  intros Heq. rewrite Heq in Hsa. rewrite Hsa in Hsa'. by injection Hsa'.
Qed.

Lemma tmp_filename_facts sa :
  sa ∈ ayah_index →
  task_filename sa.1 sa.2 ≠ EmptyString ∧
  pathlib.replace_suffix (task_filename sa.1 sa.2) ".tmp" = tmp_filename sa.1 sa.2 ∧
  decode_filename (tmp_filename sa.1 sa.2) = sa ∧
  String.get 7 (tmp_filename sa.1 sa.2) = Some "t"%char ∧
  String.get 7 (task_filename sa.1 sa.2) = Some "m"%char.
Proof.
  intros Hsa.
  assert (H : (λ sa, (String.eqb (task_filename sa.1 sa.2) EmptyString,
                      pathlib.replace_suffix (task_filename sa.1 sa.2) ".tmp",
                      decode_filename (tmp_filename sa.1 sa.2),
                      String.get 7 (tmp_filename sa.1 sa.2),
                      String.get 7 (task_filename sa.1 sa.2))) <$> ayah_index
              = (λ sa, (false, tmp_filename sa.1 sa.2, sa,
                        Some "t"%char, Some "m"%char)) <$> ayah_index).
  { vm_compute. reflexivity. }
  apply (fmap_eq_pointwise _ _ _ H) in Hsa.
  apply pair_equal_spec in Hsa as [Hsa H5].
  apply pair_equal_spec in Hsa as [Hsa H4].
  apply pair_equal_spec in Hsa as [Hsa H3].
  apply pair_equal_spec in Hsa as [H1 H2].
  split; [|exact (conj H2 (conj H3 (conj H4 H5)))].
  intros Hnil. rewrite Hnil in H1. discriminate H1.
Qed.

Lemma make_task_temp_path output_dir reciter sa :
  reciter ∈ RECITERS → sa ∈ ayah_index →
  pathlib.with_suffix (output_path (make_task output_dir reciter sa.1 sa.2)) ".tmp"
  = py.Ok (pathlib.mkPath (pathlib.root output_dir)
             ((pathlib.parts output_dir ++ pathlib.parse_components (folder reciter))
                ++ [tmp_filename sa.1 sa.2])).
Proof.
  intros Hr Hsa. rewrite make_task_output_path by done.
  destruct (tmp_filename_facts sa Hsa) as (Hne & Hrep & _).
  unfold pathlib.with_suffix, pathlib.name. cbn [pathlib.parts pathlib.root].
  rewrite List.last_last, List.removelast_last, Hrep.
  destruct (String.eqb (task_filename sa.1 sa.2) EmptyString) eqn:He;
    [by apply String.eqb_eq in He|].
  reflexivity.
Qed.

(** Lists of paths built like the catalog's, with any naming of the files
    from which surah and ayah can be read back, have no duplicates. *)
Lemma named_paths_NoDup (namef : Z * Z → string) reciters output_dir :
  NoDup reciters → (∀ r, r ∈ reciters → r ∈ RECITERS) →
  (∀ sa, sa ∈ ayah_index → decode_filename (namef sa) = sa) →
  NoDup (reciter ← reciters;
         (λ sa, pathlib.mkPath (pathlib.root output_dir)
                  ((pathlib.parts output_dir ++ pathlib.parse_components (folder reciter))
                     ++ [namef sa])) <$> ayah_index).
Proof.
  intros Hnd Hsub Hdec. apply NoDup_bind; [| |done].
  - intros r1 r2 p Hr1 Hr2 H1 H2.
    apply list_elem_of_fmap in H1 as (sa1 & -> & H1), H2 as (sa2 & Hp & H2).
    injection Hp as Hp. apply app_inj_tail in Hp as [Hp _].
    apply app_inv_head in Hp.
    by apply (NoDup_fmap_inj_on _ _ RECITERS_folders_distinct); auto.
  - intros r Hr. apply NoDup_fmap_2_strong; [|apply ayah_index_NoDup].
    intros sa1 sa2 H1 H2 Hp. injection Hp as Hp.
    apply app_inj_tail in Hp as [_ Hp].
    rewrite <- (Hdec _ H1), <- (Hdec _ H2). by rewrite Hp.
Qed.

(** X14. For the whole table and every [--reciters] selection, each task
    of the catalog has a temporary sibling (its destination with the suffix
    [.tmp]), and the destinations and the temporary siblings of all tasks
    are pairwise distinct paths: no task's temporary file is another task's
    temporary file or destination. *)
Theorem catalog_temp_paths_distinct (reciter_folders : option (list string))
    (output_dir : Path) :
  let tasks := catalog (select_reciters reciter_folders) output_dir in
  (∀ t, t ∈ tasks →
        pathlib.with_suffix (output_path t) ".tmp" = py.Ok (temp_path_of (output_path t))) ∧
  NoDup ((output_path <$> tasks) ++ ((λ t, temp_path_of (output_path t)) <$> tasks)).
Proof.
  intros tasks.
  assert (Hnd : NoDup (select_reciters reciter_folders)).
  { destruct reciter_folders as [names|]; unfold select_reciters;
      [apply NoDup_filter|]; apply RECITERS_NoDup. }
  assert (Hsub : ∀ r, r ∈ select_reciters reciter_folders → r ∈ RECITERS).
  { destruct reciter_folders as [names|]; unfold select_reciters; [|done].
    intros r Hr. by apply list_elem_of_filter in Hr as [_ Hr]. }
  assert (Htask : ∀ t, t ∈ tasks → ∃ r sa,
            r ∈ RECITERS ∧ sa ∈ ayah_index ∧ t = make_task output_dir r sa.1 sa.2).
  { intros t Ht. unfold tasks, catalog in Ht.
    apply list_elem_of_bind in Ht as (r & Ht & Hr).
    apply list_elem_of_fmap in Ht as (sa & -> & Hsa). exists r, sa. auto. }
  assert (Htemp : ∀ r sa, r ∈ RECITERS → sa ∈ ayah_index →
            temp_path_of (output_path (make_task output_dir r sa.1 sa.2))
            = pathlib.mkPath (pathlib.root output_dir)
                ((pathlib.parts output_dir ++ pathlib.parse_components (folder r))
                   ++ [tmp_filename sa.1 sa.2])).
  { intros r sa Hr Hsa. unfold temp_path_of. by rewrite make_task_temp_path. }
  split.
  - intros t Ht. destruct (Htask t Ht) as (r & sa & Hr & Hsa & ->).
    rewrite Htemp by done. by apply make_task_temp_path.
  - apply NoDup_app. split; [by apply catalog_paths_NoDup|]. split.
    + intros p Hp Hq.
      apply list_elem_of_fmap in Hp as (t1 & -> & Ht1), Hq as (t2 & Heq & Ht2).
      destruct (Htask t1 Ht1) as (r1 & sa1 & Hr1 & Hsa1 & ->).
      destruct (Htask t2 Ht2) as (r2 & sa2 & Hr2 & Hsa2 & ->).
      rewrite Htemp, make_task_output_path in Heq by done.
      injection Heq as Heq. apply app_inj_tail in Heq as [_ Heq].
      destruct (tmp_filename_facts sa1 Hsa1) as (_ & _ & _ & _ & Hm).
      destruct (tmp_filename_facts sa2 Hsa2) as (_ & _ & _ & Ht & _).
      rewrite Heq, Ht in Hm. discriminate Hm.
    + unfold tasks, catalog. rewrite fmap_of_bind.
      rewrite (Forall_bind_ext _
                 (λ r, (λ sa, pathlib.mkPath (pathlib.root output_dir)
                          ((pathlib.parts output_dir
                              ++ pathlib.parse_components (folder r))
                             ++ [tmp_filename sa.1 sa.2])) <$> ayah_index)).
      * apply (named_paths_NoDup (λ sa, tmp_filename sa.1 sa.2) _ output_dir Hnd Hsub).
        intros sa Hsa. by destruct (tmp_filename_facts sa Hsa) as (_ & _ & ? & _).
      * apply Forall_forall. intros r Hr. rewrite <- list_fmap_compose.
        apply Forall_fmap_ext_1, Forall_forall. intros sa Hsa.
        unfold compose. apply Htemp; auto.
Qed.

Lemma split_nonempty c s : py.split c s ≠ [].
Proof.
  destruct s as [|a s]; simpl; [done|].
  destruct (Ascii.eqb a c); [done|]. by destruct (py.split c s).
Qed.

Lemma split_app c a b :
  py.split c (a +:+ String c b) = py.split c a ++ py.split c b.
Proof.
  induction a as [|x a IH]; simpl.
  - by rewrite Ascii.eqb_refl.
  - destruct (Ascii.eqb x c); [by rewrite IH|].
    rewrite IH. pose proof (split_nonempty c a) as Hne.
    by destruct (py.split c a).
Qed.

Lemma parse_root_relative_app a b :
  a ≠ EmptyString → pathlib.parse_root a = EmptyString →
  pathlib.parse_root (a +:+ b) = EmptyString.
Proof.
  unfold pathlib.parse_root. destruct a as [|ch rest]; [done|]. intros _.
  simpl. destruct ch as [[] [] [] [] [] [] [] []]; try done;
    destruct (pathlib.leading_slashes rest) as [|[|]];
    destruct (pathlib.leading_slashes (rest +:+ b)) as [|[|]]; done.
Qed.

Lemma RECITERS_folder_nonempty reciter :
  reciter ∈ RECITERS → folder reciter ≠ EmptyString.
Proof.
  intros Hr.
  assert (H : (λ r, String.eqb (folder r) EmptyString) <$> RECITERS
              = (λ _, false) <$> RECITERS) by (vm_compute; reflexivity).
  pose proof (fmap_eq_pointwise _ _ _ H _ Hr) as He. simpl in He.
  intros Hnil. rewrite Hnil in He. discriminate He.
Qed.

(** X12. The local layout mirrors the remote one.  For every task of the
    catalog (whole table or a selection) there is one relative name,
    [folder/filename], such that the URL is [BASE_URL/] followed by it and
    the destination is the output directory joined with it. *)
Theorem catalog_mirrors_remote (reciter_folders : option (list string))
    (output_dir : Path) t :
  t ∈ catalog (select_reciters reciter_folders) output_dir →
  ∃ rel, url t = BASE_URL +:+ "/" +:+ rel ∧ output_path t = output_dir /: rel.
Proof.
  intros Ht. unfold catalog in Ht.
  apply list_elem_of_bind in Ht as (r & Ht & Hr).
  apply list_elem_of_fmap in Ht as (sa & -> & Hsa).
  assert (Hr' : r ∈ RECITERS).
  { destruct reciter_folders as [names|]; unfold select_reciters in Hr; [|done].
    by apply list_elem_of_filter in Hr as [_ Hr]. }
  exists (folder r +:+ String "/"%char (task_filename sa.1 sa.2)).
  split; [reflexivity|].
  rewrite make_task_output_path by done.
  destruct (filename_parse sa Hsa) as (_ & Hcomp & _).
  unfold pathlib.joinpath.
  rewrite (parse_root_relative_app _ _ (RECITERS_folder_nonempty _ Hr')
             (RECITERS_relative _ Hr')).
  rewrite decide_True by done.
  unfold pathlib.parse_components in *.
  by rewrite split_app, filter_app, Hcomp, app_assoc.
Qed.

(** * Scenarios *)

Lemma download_file_resume_witness :
  (download_file "u" dest serve_404 3 false present_fs).1.1 = py.Ok (true, true, None) ∧
  (download_file "u" dest serve_404 3 false present_fs).2 = [] ∧
  (download_file "u" dest serve_404 3 false partial_fs).1.1 ≠ py.Ok (true, true, None) ∧
  ∃ ev', (download_file "u" dest serve_404 3 false partial_fs).2
         = EvUnlink dest :: EvMkdir (pathlib.parent dest) :: EvGet "u" :: ev'.
Proof.
  assert (Hbig : present_fs !! dest = Some (replicate 1024 Byte.x00))
    by apply lookup_singleton_eq.
  assert (Hsmall : partial_fs !! dest = Some [Byte.x00]) by apply lookup_singleton_eq.
  pose proof (download_file_resume "u" dest serve_404 3 _ _ Hbig) as H1.
  pose proof (download_file_resume "u" dest serve_404 3 _ _ Hsmall) as H2.
  destruct (download_file "u" dest serve_404 3 false present_fs) as [[r1 fs1] ev1].
  destruct (download_file "u" dest serve_404 3 false partial_fs) as [[r2 fs2] ev2].
  destruct H1 as [H1 _]. destruct H2 as [_ H2].
  destruct H1 as (-> & _ & ->); [by vm_compute|].
  destruct H2 as (Hr & _ & Hev); [by vm_compute|].
  repeat split; [exact Hr|]. apply Hev; [lia|]. by vm_compute.
Defined.

Lemma download_file_transient_retry_witness :
  let '(r, fs', ev) := download_file "u" dest timeouts 3 false ∅ in
  r = py.Ok (false, false, Some "Timeout") ∧
  network_trace ev = [EvGet "u"; EvSleep 2; EvGet "u"; EvSleep 4; EvGet "u"].
Proof.
  apply (download_file_transient_retry "u" dest timeouts false ∅).
  - by vm_compute.
  - reflexivity.
  - intros attempt _. by eexists.
Defined.

Lemma download_file_permanent_failure_witness :
  let '(r, fs', ev) := download_file "u" dest serve_404 3 true partial_fs in
  r = py.Ok (false, false, Some "404 Not Found") ∧ network_trace ev = [EvGet "u"].
Proof.
  apply (download_file_permanent_failure "u" dest serve_404 3 true partial_fs).
  - by vm_compute.
  - reflexivity.
  - lia.
  - by eexists.
Defined.

Lemma download_file_atomic_witness :
  let '(r, fs', ev) := download_file "u" dest broken_stream 3 true partial_fs in
  Forall (writes_only_to dest_tmp) ev ∧
  (∀ chunk, (EvOpen dest ∉ ev) ∧ (EvWrite dest chunk ∉ ev)) ∧
  (r = py.Ok (true, false, None) →
     fs' !! dest_tmp = None ∧
     ∃ content, fs' !! dest = Some content ∧ MIN_VALID_FILE_SIZE ≤ st_size content) ∧
  (r ≠ py.Ok (true, false, None) → r ≠ py.Ok (true, true, None) →
     fs' !! dest_tmp = None ∧ fs' !! dest = partial_fs !! dest).
Proof.
  apply (download_file_atomic "u" dest dest_tmp broken_stream 3 true partial_fs).
  - by vm_compute.
  - by vm_compute.
  - lia.
Defined.

(** With [--force] a failed fetch keeps the file that was at the
    destination: here a 404 on a destination that holds one byte. *)
Lemma download_file_force_keeps_destination :
  let '(r, fs', ev) := download_file "u" dest serve_404 3 true partial_fs in
  r = py.Ok (false, false, Some "404 Not Found") ∧
  fs' !! dest = Some [Byte.x00] ∧
  fs' !! dest ≠ None.
Proof. vm_compute. repeat split; discriminate. Qed.

Lemma pool_counts_race_free_witness :
  let p := run_schedule false [0; 1; 0; 0; 0; 1; 1; 1]%nat
             (init_pool DownloadStats_init ∅ (zip two_tasks [serve_ok; serve_404])) in
  downloaded (p_stats p) + skipped (p_stats p) + failed (p_stats p)
  = Z.of_nat (returned_count (p_workers p)) ∧
  failed (p_stats p) = Z.of_nat (length (failed_files (p_stats p))) ∧
  (Forall (λ w, is_Some (returned_value w)) (p_workers p) →
   downloaded (p_stats p) + skipped (p_stats p) + failed (p_stats p) = 2).
Proof.
  apply (pool_counts_race_free false ∅ (zip two_tasks [serve_ok; serve_404])
           [0; 1; 0; 0; 0; 1; 1; 1]%nat).
  - vm_compute. reflexivity.
  - vm_compute. by repeat constructor.
Defined.

(** Two workers whose reads and stores of [stats.downloaded] alternate:
    both tasks are downloaded and one increment is lost.  With two failing
    tasks, [failed] ends at 1 while [failed_files] holds two records. *)
Lemma pool_lost_update :
  let p := run_schedule false [0; 1; 0; 1; 0; 1]%nat
             (init_pool DownloadStats_init ∅ (zip two_tasks [serve_ok; serve_ok])) in
  let q := run_schedule false [0; 1; 0; 1; 0; 1; 0; 1]%nat
             (init_pool DownloadStats_init ∅ (zip two_tasks [serve_404; serve_404])) in
  is_done <$> p_workers p = [true; true] ∧
  returned_count (p_workers p) = 2%nat ∧
  downloaded (p_stats p) + skipped (p_stats p) + failed (p_stats p) = 1 ∧
  is_done <$> p_workers q = [true; true] ∧
  failed (p_stats q) = 1 ∧
  length (failed_files (p_stats q)) = 2%nat.
Proof. vm_compute. repeat split. Qed.




Lemma download_file_idempotent_witness :
  let '(r, fs1, ev1) := download_file "u" dest serve_ok 3 false ∅ in
  download_file "u" dest timeouts 3 false fs1 = (py.Ok (true, true, None), fs1, []).
Proof.
  assert (Hsuf : pathlib.with_suffix dest ".tmp" = py.Ok dest_tmp) by by vm_compute.
  assert (Hne : dest_tmp ≠ dest) by by vm_compute.
  pose proof (download_file_idempotent "u" dest dest_tmp serve_ok timeouts 3 3 false ∅
                Hsuf Hne) as H.
  assert (Hr : (download_file "u" dest serve_ok 3 false ∅).1.1
               = py.Ok (true, false, None)) by (vm_compute; reflexivity).
  destruct (download_file "u" dest serve_ok 3 false ∅) as [[r fs1] ev1].
  simpl in Hr. apply H. by left.
Defined.

Lemma download_file_frame_witness :
  (download_file "u" dest serve_ok 3 false {[ other_file := [Byte.x00] ]}).1.2 !! other_file
  = ({[ other_file := [Byte.x00] ]} : FileSystem) !! other_file.
Proof.
  apply (download_file_frame "u" dest serve_ok 3 false).
  - by vm_compute.
  - intros temp_path Hs. vm_compute in Hs. injection Hs as <-. by vm_compute.
Defined.

Lemma download_file_success_witness :
  let '(r, fs', ev) := download_file "u" dest serve_ok 3 true partial_fs in
  r = py.Ok (true, false, None) ∧
  fs' !! dest = Some (replicate 1024 Byte.x00) ∧
  fs' !! dest_tmp = None ∧
  network_trace ev = [EvGet "u"].
Proof.
  apply (download_file_success "u" dest dest_tmp serve_ok 3 true partial_fs).
  - by vm_compute.
  - by vm_compute.
  - reflexivity.
  - lia.
  - vm_compute. reflexivity.
Defined.

Lemma download_file_backoff_witness :
  let '(r, fs', ev) := download_file "u" dest timeouts 3 false ∅ in
  ∃ delays,
    network_trace ev = attempts_trace "u" delays ∧
    Z.of_nat (length delays) < 3 ∧
    ∀ (i : nat) d, delays !! i = Some d →
      d = Z.of_nat i + 1 ∨ d = 2 * (Z.of_nat i + 1).
Proof.
  apply (download_file_backoff "u" dest timeouts 3 false ∅).
  - by vm_compute.
  - reflexivity.
  - lia.
Defined.

Lemma download_file_no_attempts_witness :
  let '(r, fs', ev) := download_file "u" dest serve_ok 0 false ∅ in
  r = py.Ok (false, false, Some "Max retries exceeded") ∧ network_trace ev = [].
Proof.
  apply (download_file_no_attempts "u" dest serve_ok 0 false ∅).
  - by vm_compute.
  - reflexivity.
  - lia.
Defined.

Lemma download_file_status_retry_witness :
  let '(r, fs', ev) := download_file "u" dest serve_500 3 false ∅ in
  r = py.Ok (false, false, Some "HTTP 500") ∧
  network_trace ev = [EvGet "u"; EvSleep 1; EvGet "u"; EvSleep 2; EvGet "u"].
Proof.
  apply (download_file_status_retry "u" dest serve_500 false ∅).
  - by vm_compute.
  - reflexivity.
  - intros attempt _. by eexists.
Defined.

Lemma failure_report_iff_status_witness :
  let '(status, stats, out) :=
    download_phase [husary] (pathlib.of_string "out") false two_tasks long_run in
  (status ≠ 0 ↔ report_written out = true) ∧
  (report_written out = true ↔
   Exists (λ w, has_failed w = true)
     (p_workers (final_pool (pathlib.of_string "out") false two_tasks long_run))).
Proof.
  apply (failure_report_iff_status [husary] (pathlib.of_string "out") false
           two_tasks long_run).
  vm_compute. by repeat constructor.
Defined.

Lemma catalog_mirrors_remote_witness :
  ∃ rel,
    url (make_task (pathlib.of_string "out") husary 1 1) = BASE_URL +:+ "/" +:+ rel ∧
    output_path (make_task (pathlib.of_string "out") husary 1 1)
    = pathlib.of_string "out" /: rel.
Proof.
  apply (catalog_mirrors_remote (Some ["Husary_128kbps"]) (pathlib.of_string "out")).
  unfold catalog. apply list_elem_of_bind. exists husary. split.
  - apply (list_elem_of_fmap_2' _ _ (1, 1)); [|reflexivity].
    unfold ayah_index. apply list_elem_of_bind. exists 1.
    split; [|apply elem_of_seqZ; lia].
    apply list_elem_of_bind. exists 1.
    split; [by apply list_elem_of_singleton|].
    apply elem_of_seqZ. by vm_compute.
  - unfold select_reciters. apply list_elem_of_filter. split; [set_solver|].
    apply (bool_decide_unpack _). vm_compute. exact I.
Defined.

Lemma task_filename_injective_witness :
  String.length (task_filename 2 286) = 10%nat ∧
  decode_filename (task_filename 2 286) = (2, 286) ∧
  (task_filename 2 286 = task_filename 22 86 → 2 = 22 ∧ 286 = 86).
Proof. apply (task_filename_injective 2 286 22 86); lia. Defined.
